(** * Mail2Ntfy worker: the EmailProcessor pipeline of [src/index.js]

    A shallow embedding of the worker's [EmailProcessor] class and of the
    exported [email] handler, together with the properties of the
    specification that concern them.

    JavaScript strings are sequences of UTF-16 code units; they are modelled
    as lists of [N].  The string primitives of the language that the worker
    calls ([trim], [split], [indexOf], [slice], [replace] with the regular
    expressions that occur in the source, [atob], ...) are modelled in
    [Module JS], following ECMA-262 and the WHATWG forgiving-base64
    algorithm. *)

From Stdlib Require Import List NArith ZArith Bool Ascii String Lia.
From Stdlib Require Import DecimalString.
Import ListNotations.

Set Implicit Arguments.

(* ================================================================== *)
(** ** JavaScript strings and the primitives used by the worker        *)
(* ================================================================== *)

Module JS.

(** A string is the list of its code units. *)
Definition jsstring := list N.

(** A literal of the source, written with characters of Latin-1. *)
Definition lit (s : string) : jsstring :=
  List.map N_of_ascii (list_ascii_of_string s).

Definition LF : N := 10.
Definition CR : N := 13.
Definition SP : N := 32.

(** [!s] for a string: only the empty string is falsy. *)
Definition falsy (s : jsstring) : bool :=
  match s with [] => true | _ :: _ => false end.

Definition truthy (s : jsstring) : bool := negb (falsy s).

(** The class [\s] of regular expressions, which is also the set removed by
    [String.prototype.trim]: WhiteSpace and LineTerminator of ECMA-262. *)
Definition isWhiteSpace (c : N) : bool :=
  ((9 <=? c) && (c <=? 13) || (c =? 32) || (c =? 160) || (c =? 5760)
   || (8192 <=? c) && (c <=? 8202) || (c =? 8232) || (c =? 8233)
   || (c =? 8239) || (c =? 8287) || (c =? 12288) || (c =? 65279))%N.

Fixpoint trimStart (s : jsstring) : jsstring :=
  match s with
  | [] => []
  | c :: t => if isWhiteSpace c then trimStart t else s
  end.

Definition trimEnd (s : jsstring) : jsstring := rev (trimStart (rev s)).

Definition trim (s : jsstring) : jsstring := trimEnd (trimStart s).

(** [s.startsWith(p)] *)
Fixpoint startsWith (s p : jsstring) {struct p} : bool :=
  match p with
  | [] => true
  | x :: p' =>
      match s with
      | [] => false
      | y :: s' => (x =? y)%N && startsWith s' p'
      end
  end.

(** [s.includes(p)] *)
Fixpoint includes (s p : jsstring) : bool :=
  startsWith s p ||
  match s with
  | [] => false
  | _ :: t => includes t p
  end.

(** [s.indexOf(p)]: the least index at which [p] occurs, [-1] if none. *)
Fixpoint indexOf (s p : jsstring) : Z :=
  if startsWith s p then 0%Z
  else match s with
       | [] => (-1)%Z
       | _ :: t => let i := indexOf t p in
                   if (i <? 0)%Z then (-1)%Z else (i + 1)%Z
       end.

(** [s.slice(from, to)]; [to] is [None] when the argument is omitted.
    Negative positions count from the end, and both are clamped. *)
Definition clampIndex (len i : Z) : Z :=
  if (i <? 0)%Z then Z.max (len + i) 0 else Z.min i len.

Definition slice (s : jsstring) (from : Z) (to : option Z) : jsstring :=
  let len := Z.of_nat (List.length s) in
  let a := clampIndex len from in
  let b := match to with Some t => clampIndex len t | None => len end in
  firstn (Z.to_nat (b - a)) (skipn (Z.to_nat a) s).

(** [s.split(sep)] for a non-empty separator: [pending] counts the code
    units of the separator just recognised that are still to be skipped. *)
Fixpoint split_from (sep : jsstring) (pending : nat) (s : jsstring)
  : jsstring * list jsstring :=
  match s with
  | [] => ([], [])
  | c :: t =>
      match pending with
      | S k => split_from sep k t
      | O =>
          if startsWith s sep
          then let '(p, ps) := split_from sep (Nat.pred (List.length sep)) t in
               ([], p :: ps)
          else let '(p, ps) := split_from sep 0 t in
               (c :: p, ps)
      end
  end.

Definition split (s sep : jsstring) : list jsstring :=
  let '(p, ps) := split_from sep 0 s in p :: ps.

(** [parts.join(sep)] *)
Fixpoint join (sep : jsstring) (parts : list jsstring) : jsstring :=
  match parts with
  | [] => []
  | [p] => p
  | p :: rest => p ++ sep ++ join sep rest
  end.

(** *** [replace] with a global regular expression

    None of the global expressions of the source can match the empty string
    or looks at what precedes the match, so a scan from left to right is
    enough: [re s] tells whether the expression matches at the start of [s],
    how many code units it consumes and what it captures; [by_] computes the
    replacement.  [pending] counts the code units of the current match that
    remain to be consumed. *)
Section Replace.
Variable A : Type.
Variable re : jsstring -> option (nat * A).
Variable by_ : A -> jsstring.

Fixpoint replace_from (pending : nat) (s : jsstring) : jsstring :=
  match s with
  | [] => []
  | c :: t =>
      match pending with
      | S k => replace_from k t
      | O =>
          match re s with
          | Some (n, cap) => by_ cap ++ replace_from (Nat.pred n) t
          | None => c :: replace_from 0 t
          end
      end
  end.

Definition replaceAll (s : jsstring) : jsstring := replace_from 0 s.
End Replace.

(** The leftmost match of a non-global expression ([String.prototype.match],
    or [replace] without the [g] flag): [re] is tried at every position. *)
Section Search.
Variable A : Type.
Variable re : jsstring -> option A.

Fixpoint search (s : jsstring) : option A :=
  match re s with
  | Some m => Some m
  | None => match s with
            | [] => None
            | _ :: t => search t
            end
  end.
End Search.

(** The longest prefix of code units that satisfy [p], and what follows
    it. *)
Fixpoint takeWhile (p : N -> bool) (s : jsstring) : jsstring :=
  match s with
  | [] => []
  | c :: t => if p c then c :: takeWhile p t else []
  end.

Fixpoint dropWhile (p : N -> bool) (s : jsstring) : jsstring :=
  match s with
  | [] => []
  | c :: t => if p c then dropWhile p t else s
  end.

(** [/\s+/] at the start of [s]: the whole run, greedily. *)
Definition re_ws_run (s : jsstring) : option (nat * unit) :=
  match s with
  | c :: t => if isWhiteSpace c
              then Some (S (List.length (takeWhile isWhiteSpace t)), tt)
              else None
  | [] => None
  end.

(** [/\s/] *)
Definition re_ws (s : jsstring) : option (nat * unit) :=
  match s with
  | c :: _ => if isWhiteSpace c then Some (1, tt) else None
  | [] => None
  end.

(** [/[\r\n]/] *)
Definition re_crlf (s : jsstring) : option (nat * unit) :=
  match s with
  | c :: _ => if (c =? CR)%N || (c =? LF)%N then Some (1, tt) else None
  | [] => None
  end.

(** [/\./] *)
Definition re_dot (s : jsstring) : option (nat * unit) :=
  match s with
  | c :: _ => if (c =? 46)%N then Some (1, tt) else None
  | [] => None
  end.

(** Non-global [replace]: only the leftmost match is replaced. *)
Section ReplaceFirst.
Variable A : Type.
Variable re : jsstring -> option (nat * A).
Variable by_ : A -> jsstring.

Fixpoint replaceFirst (s : jsstring) : jsstring :=
  match re s with
  | Some (n, cap) => by_ cap ++ skipn n s
  | None => match s with
            | [] => []
            | c :: t => c :: replaceFirst t
            end
  end.
End ReplaceFirst.

(** [/--$/] and [/\/$/]: the literal, then the end of the input. *)
Definition re_at_end (p : jsstring) (s : jsstring) : option (nat * unit) :=
  if startsWith s p && (List.length s =? List.length p)%nat
  then Some (List.length p, tt) else None.

(** [/=\r?\n/]: a soft line break. *)
Definition re_soft_break (s : jsstring) : option (nat * unit) :=
  match s with
  | c0 :: c1 :: t =>
      if (c0 =? 61)%N then
        if (c1 =? LF)%N then Some (2, tt)
        else if (c1 =? CR)%N then
               match t with
               | c2 :: _ => if (c2 =? LF)%N then Some (3, tt) else None
               | [] => None
               end
             else None
      else None
  | _ => None
  end.

(** [[A-Fa-f0-9]] and the value of a hexadecimal digit. *)
Definition hexValue (c : N) : option N :=
  if (48 <=? c)%N && (c <=? 57)%N then Some (c - 48)%N
  else if (65 <=? c)%N && (c <=? 70)%N then Some (c - 55)%N
  else if (97 <=? c)%N && (c <=? 102)%N then Some (c - 87)%N
  else None.

Definition isHexDigit (c : N) : bool :=
  match hexValue c with Some _ => true | None => false end.

(** [/=([A-Fa-f0-9]{2})/]: the capture is the two digits. *)
Definition re_hex_escape (s : jsstring) : option (nat * jsstring) :=
  match s with
  | c0 :: h1 :: h2 :: _ =>
      if (c0 =? 61)%N && isHexDigit h1 && isHexDigit h2
      then Some (3, [h1; h2]) else None
  | _ => None
  end.

(** [parseInt(s, 16)]: the longest prefix of hexadecimal digits; [None] is
    [NaN], the result when there is no digit. *)
Fixpoint parseHex (acc : option N) (s : jsstring) : option N :=
  match s with
  | [] => acc
  | c :: t =>
      match hexValue c with
      | Some d =>
          parseHex (Some (16 * match acc with Some a => a | None => 0 end + d)%N) t
      | None => acc
      end
  end.

Definition parseInt16 (s : jsstring) : option N := parseHex None s.

(** [String.fromCharCode(n)]: [ToUint16], which sends [NaN] to 0. *)
Definition fromCharCode (n : option N) : jsstring :=
  match n with
  | Some v => [(v mod 65536)%N]
  | None => [0%N]
  end.

(** Matching under the flag [i] against a pattern character of ASCII.
    Canonicalize maps a code unit to its upper case, except that a code unit
    from 128 on is never mapped below 128: such a code unit matches no ASCII
    pattern character, so only the ASCII letters need a mapping here. *)
Definition canonicalize (c : N) : N :=
  if (97 <=? c)%N && (c <=? 122)%N then (c - 32)%N else c.

(** The ASCII pattern [p] read at the start of [s] under the flag [i]; the
    result is what follows it. *)
Fixpoint stripPrefix_ci (s p : jsstring) {struct p} : option jsstring :=
  match p with
  | [] => Some s
  | x :: p' =>
      match s with
      | [] => None
      | y :: s' =>
          if (canonicalize x =? canonicalize y)%N then stripPrefix_ci s' p'
          else None
      end
  end.

(** The class of the boundary value: any code unit but the double quote,
    the semicolon, CR and LF. *)
Definition isBoundaryChar (c : N) : bool :=
  negb ((c =? 34)%N || (c =? 59)%N || (c =? CR)%N || (c =? LF)%N).

(** The boundary expression of [extractPlainText] at the start of [s]:
    [boundary=] under the flag [i], an optional double quote, the captured
    run of value characters, an optional double quote.  The optional quote
    is taken when present (giving it back would leave the class in front of
    a quote, which it excludes); the class is greedy and what follows it can
    always match, so the capture is the longest run. *)
Definition re_boundary (s : jsstring) : option jsstring :=
  match stripPrefix_ci s (lit "boundary=") with
  | Some r =>
      let r' := match r with
                | c :: t => if (c =? 34)%N then t else r
                | [] => r
                end in
      let v := takeWhile isBoundaryChar r' in
      if falsy v then None else Some v
  | None => None
  end.

(** [/Content-Transfer-Encoding:\s*(\S+)/i] at the start of [s]: giving back
    white space would leave [\S] in front of white space, so the capture is
    the run of non-white-space after all the white space. *)
Definition re_encoding (s : jsstring) : option jsstring :=
  match stripPrefix_ci s (lit "Content-Transfer-Encoding:") with
  | Some r =>
      let v := takeWhile (fun c => negb (isWhiteSpace c))
                 (dropWhile isWhiteSpace r) in
      if falsy v then None else Some v
  | None => None
  end.

(** [s.toLowerCase()].  Outside ASCII it is modelled as the identity: the
    worker only compares the result with the literals [quoted-printable] and
    [base64]; a code unit outside ASCII lowers to text that contains a code
    unit outside ASCII or (U+212A) the letter k, which occurs in neither
    literal, so the comparisons are unaffected. *)
Definition toLowerCase (s : jsstring) : jsstring :=
  List.map (fun c => if (65 <=? c)%N && (c <=? 90)%N then (c + 32)%N else c) s.

(** [a === b] on strings. *)
Fixpoint str_eqb (a b : jsstring) : bool :=
  match a, b with
  | [], [] => true
  | x :: a', y :: b' => (x =? y)%N && str_eqb a' b'
  | _, _ => false
  end.

(** *** [atob]: the forgiving-base64 decode of the WHATWG Infra standard *)

Definition isAsciiWhitespace (c : N) : bool :=
  ((c =? 9) || (c =? 10) || (c =? 12) || (c =? 13) || (c =? 32))%N.

(** The value of a character of the base64 alphabet (RFC 4648, table 1). *)
Definition b64Value (c : N) : option N :=
  if (65 <=? c)%N && (c <=? 90)%N then Some (c - 65)%N
  else if (97 <=? c)%N && (c <=? 122)%N then Some (c - 71)%N
  else if (48 <=? c)%N && (c <=? 57)%N then Some (c + 4)%N
  else if (c =? 43)%N then Some 62%N
  else if (c =? 47)%N then Some 63%N
  else None.

Fixpoint sextets (data : jsstring) : option (list N) :=
  match data with
  | [] => Some []
  | c :: t =>
      match b64Value c, sextets t with
      | Some v, Some vs => Some (v :: vs)
      | _, _ => None
      end
  end.

(** Step 2: when the length is a multiple of four, one or two final [=]
    are removed. *)
Definition stripPadding (data : jsstring) : jsstring :=
  if (List.length data mod 4 =? 0)%nat then
    match rev data with
    | c1 :: c2 :: r =>
        if (c1 =? 61)%N then
          if (c2 =? 61)%N then rev r else rev (c2 :: r)
        else data
    | _ => data
    end
  else data.

(** Steps 5 to 8: four sextets give three bytes; a remainder of two gives
    one byte and a remainder of three gives two, the spare bits dropped. *)
Fixpoint decodeSextets (l : list N) : list N :=
  match l with
  | a :: b :: c :: d :: rest =>
      let w := (a * 262144 + b * 4096 + c * 64 + d)%N in
      (w / 65536)%N :: ((w / 256) mod 256)%N :: (w mod 256)%N
        :: decodeSextets rest
  | [a; b; c] =>
      let w := ((a * 4096 + b * 64 + c) / 4)%N in
      [(w / 256)%N; (w mod 256)%N]
  | [a; b] => [((a * 64 + b) / 16)%N]
  | _ => []
  end.

(** The decode itself; [None] is failure. *)
Definition forgivingBase64Decode (data : jsstring) : option jsstring :=
  let data := filter (fun c => negb (isAsciiWhitespace c)) data in
  let data := stripPadding data in
  if (List.length data mod 4 =? 1)%nat then None
  else match sextets data with
       | Some l => Some (decodeSextets l)
       | None => None
       end.

End JS.

Import JS.

(* ================================================================== *)
(** ** Effects: exceptions, the console and the outbound request       *)
(* ================================================================== *)

Module Eff.

(** A thrown value: an error object with its name and message. *)
Record exn := mkExn { exn_name : jsstring; exn_message : jsstring }.

(** An argument of a console call. *)
Inductive arg :=
| Str (s : jsstring)
| Err (e : exn).

(** The [init] object given to [fetch] and the part of the response that the
    worker reads. *)
Record request := mkRequest {
  req_method : jsstring;
  req_headers : list (jsstring * jsstring);
  req_body : jsstring
}.

Record response := mkResponse {
  ok : bool;
  status : N;
  statusText : jsstring
}.

(** What a run of the worker does to the outside, in order. *)
Inductive event :=
| ConsoleLog (args : list arg)
| ConsoleWarn (args : list arg)
| ConsoleError (args : list arg)
| Fetch (url : jsstring) (init : request).

(** How an evaluation (or an awaited promise) ends. *)
Inductive completion (A : Type) :=
| Normal (a : A)
| Throw (e : exn).

Arguments Normal {A} a.
Arguments Throw {A} e.

(** A computation: the events it emits and how it ends. *)
Definition M (A : Type) : Type := list event * completion A.

Definition ret {A} (a : A) : M A := ([], Normal a).

Definition throw {A} (e : exn) : M A := ([], Throw e).

Definition bind {A B} (m : M A) (k : A -> M B) : M B :=
  match m with
  | (l1, Normal a) => let '(l2, r) := k a in (l1 ++ l2, r)
  | (l1, Throw e) => (l1, Throw e)
  end.

(** [try { m } catch (error) { h error }] *)
Definition tryCatch {A} (m : M A) (h : exn -> M A) : M A :=
  match m with
  | (l1, Throw e) => let '(l2, r) := h e in (l1 ++ l2, r)
  | (l1, Normal a) => (l1, Normal a)
  end.

Definition emit (ev : event) : M unit := ([ev], Normal tt).

(** [await p] for a promise that has settled as [c]. *)
Definition await {A} (c : completion A) : M A := ([], c).

Definition events {A} (m : M A) : list event := fst m.
Definition outcome {A} (m : M A) : completion A := snd m.

End Eff.

Import Eff.

Notation "x <- m ;; k" := (bind m (fun x => k))
  (at level 61, m at next level, right associativity).
Notation "m ;;; k" := (bind m (fun _ => k))
  (at level 61, right associativity).

(** The host: the global [fetch], as the completion of the promise it
    returns for a request, and the reading of the clock as
    [new Date().toISOString()] renders it. *)
Record Host := mkHost {
  fetch : jsstring -> request -> completion response;
  isoNow : jsstring
}.

(** [atob(data)]: failure of the decode is an [InvalidCharacterError]. *)
Definition atob (data : jsstring) : M jsstring :=
  match forgivingBase64Decode data with
  | Some d => ret d
  | None => throw (mkExn (lit "InvalidCharacterError")
                         (lit "The string to be decoded is not correctly encoded."))
  end.

(** The number [n] in a template literal. *)
Definition showN (n : N) : jsstring := lit (NilZero.string_of_uint (N.to_uint n)).

(* ================================================================== *)
(** ** class EmailProcessor                                            *)
(* ================================================================== *)

(** The environment bindings: [NTFY_SERVER] is [None] when unset. *)
Record Env := mkEnv { NTFY_SERVER : option jsstring }.

Record EmailProcessor := mkProcessor { env : Env }.

(** The message object of the runtime: [headers_get] is [headers.get], which
    gives [None] for [null]; [raw] is how reading the raw stream as text
    ends. *)
Record Message := mkMessage {
  msg_to : option jsstring;
  msg_from : option jsstring;
  headers_get : jsstring -> option jsstring;
  raw : completion jsstring
}.

(** [!v] for a string or [undefined]/[null]. *)
Definition absent (v : option jsstring) : bool :=
  match v with
  | Some s => falsy s
  | None => true
  end.

(** [v || d] for a string or [undefined]/[null]. *)
Definition orElse (v : option jsstring) (d : jsstring) : jsstring :=
  match v with
  | Some s => if falsy s then d else s
  | None => d
  end.

(** [validateEnvironment()] *)
Definition validateEnvironment (this : EmailProcessor) : M unit :=
  if absent (NTFY_SERVER (env this))
  then throw (mkExn (lit "Error")
                    (lit "NTFY_SERVER environment variable is required"))
  else ret tt.

(** [new EmailProcessor(env)] *)
Definition newEmailProcessor (e : Env) : M EmailProcessor :=
  let this := mkProcessor e in
  validateEnvironment this ;;; ret this.

(** [decodeQuotedPrintable(input)] *)
Definition decodeQuotedPrintable (input : jsstring) : jsstring :=
  if falsy input then []
  else replaceAll re_hex_escape (fun hex => fromCharCode (parseInt16 hex))
         (replaceAll re_soft_break (fun _ => []) input).

(** [decodeBase64(input)] *)
Definition decodeBase64 (input : jsstring) : M jsstring :=
  if falsy input then ret []
  else tryCatch
         (atob (replaceAll re_ws (fun _ => []) input))
         (fun error =>
            emit (ConsoleWarn [Str (lit "Failed to decode base64:"); Err error]) ;;;
            ret input).

(** [extractSimpleEmail(raw)] *)
Definition extractSimpleEmail (raw : jsstring) : jsstring :=
  let headerEnd := indexOf raw [CR; LF; CR; LF] in
  if negb (headerEnd =? -1)%Z
  then trim (slice raw (headerEnd + 4) None)
  else trim raw.

(** [extractPartBody(part)]; [None] is [null]. *)
Definition extractPartBody (part : jsstring) : M (option jsstring) :=
  let bodyStart := indexOf part [CR; LF; CR; LF] in
  if (bodyStart =? -1)%Z then ret None
  else
    let encoding := match search re_encoding part with
                    | Some e => toLowerCase e
                    | None => lit "7bit"
                    end in
    let body := trim (slice part (bodyStart + 4) None) in
    let body := trim (replaceFirst (re_at_end (lit "--")) (fun _ => []) body) in
    if falsy body then ret None
    else if str_eqb encoding (lit "quoted-printable")
         then ret (Some (decodeQuotedPrintable body))
         else if str_eqb encoding (lit "base64")
              then b <- decodeBase64 body ;; ret (Some b)
              else ret (Some body).

(** The loop of [extractPlainText] over the parts: [Some body] when it
    returns from inside the loop, [None] when the loop runs to its end. *)
Fixpoint scanParts (parts : list jsstring) : M (option jsstring) :=
  match parts with
  | [] => ret None
  | part :: rest =>
      if negb (includes part (lit "Content-Type: text/plain"))
      then scanParts rest
      else
        body <- extractPartBody part ;;
        match body with
        | Some b => if truthy b then ret (Some b) else scanParts rest
        | None => scanParts rest
        end
  end.

(** [extractPlainText(raw)] *)
Definition extractPlainText (raw : jsstring) : M jsstring :=
  if falsy raw then ret []
  else
    match search re_boundary raw with
    | None => ret (extractSimpleEmail raw)
    | Some boundary =>
        let parts := split raw (lit "--" ++ boundary) in
        found <- scanParts parts ;;
        match found with
        | Some body => ret body
        | None => ret (extractSimpleEmail raw)
        end
    end.

(** [cleanBodyText(text)] *)
Definition cleanBodyText (text : jsstring) : jsstring :=
  if falsy text then []
  else
    trim (join [LF]
            (filter (fun line => negb (startsWith (trim line) (lit ">")))
               (split (trim (replaceAll re_ws_run (fun _ => [SP]) text))
                  [LF]))).

(** [truncateText(text, maxLength)] *)
Definition truncateText (text : jsstring) (maxLength : Z) : jsstring :=
  if falsy text || (Z.of_nat (List.length text) <=? maxLength)%Z then text
  else slice text 0 (Some maxLength) ++ [LF; LF] ++ lit "*...truncated*".

(** [generateTopic(email)]; [split('@')[1]] is [undefined] when the array
    has a single element, which is falsy like the empty string. *)
Definition generateTopic (email : jsstring) : jsstring :=
  if falsy email || negb (includes email (lit "@")) then lit "unknown"
  else
    match nth_error (split email (lit "@")) 1 with
    | Some domain =>
        if truthy domain
        then replaceAll re_dot (fun _ => lit "-") domain
        else lit "unknown"
    | None => lit "unknown"
    end.

(** [sanitizeHeader(value)] *)
Definition sanitizeHeader (value : jsstring) : jsstring :=
  if falsy value then []
  else trim (replaceAll re_ws_run (fun _ => [SP])
               (replaceAll re_crlf (fun _ => [SP]) value)).

(** The object given to [buildMarkdownPayload]. *)
Record EmailData := mkEmailData {
  ed_from : jsstring;
  ed_to : jsstring;
  ed_subject : jsstring;
  ed_date : jsstring;
  ed_body : jsstring
}.

(** [buildMarkdownPayload(emailData)] *)
Definition buildMarkdownPayload (d : EmailData) : jsstring :=
  trim ([LF] ++ lit "**Date:** " ++ sanitizeHeader (ed_date d) ++ [LF; LF]
        ++ lit "**From:** " ++ sanitizeHeader (ed_from d) ++ lit "  " ++ [LF]
        ++ lit "**To:** " ++ sanitizeHeader (ed_to d) ++ lit "  " ++ [LF]
        ++ lit "**Subject:** " ++ sanitizeHeader (ed_subject d) ++ lit "  "
        ++ [LF; LF] ++ lit "---" ++ [LF; LF]
        ++ ed_body d ++ [LF]).

Section WithHost.
Variable host : Host.

(** [sendNotification(topic, payload, subject, to)]; reading [replace]
    from an unset [NTFY_SERVER] is a [TypeError]. *)
Definition sendNotification (this : EmailProcessor)
           (topic payload subject to : jsstring) : M unit :=
  match NTFY_SERVER (env this) with
  | None =>
      throw (mkExn (lit "TypeError")
                   (lit "Cannot read properties of undefined (reading 'replace')"))
  | Some server =>
      let ntfyServer := replaceFirst (re_at_end (lit "/")) (fun _ => []) server in
      let url := ntfyServer ++ lit "/" ++ topic in
      let headers :=
        [ (lit "Title", lit "Email: " ++ sanitizeHeader subject);
          (lit "Priority", lit "4");
          (lit "Tags", lit "email," ++ sanitizeHeader to);
          (lit "Markdown", lit "yes") ] in
      tryCatch
        (let init := mkRequest (lit "POST") headers payload in
         emit (Fetch url init) ;;;
         response <- await (fetch host url init) ;;
         if negb (ok response)
         then emit (ConsoleError
                      [Str (lit "ntfy request failed: " ++ showN (status response)
                            ++ lit " " ++ statusText response)])
         else ret tt)
        (fun error =>
           emit (ConsoleError
                   [Str (lit "Failed to send ntfy notification:"); Err error]) ;;;
           throw error)
  end.

(** [processEmail(message)] *)
Definition processEmail (this : EmailProcessor) (message : Message) : M unit :=
  tryCatch
    (let to := orElse (msg_to message) [] in
     let from := orElse (headers_get message (lit "from"))
                   (orElse (msg_from message) (lit "(unknown sender)")) in
     let subject := orElse (headers_get message (lit "subject"))
                      (lit "(no subject)") in
     let date := orElse (headers_get message (lit "date")) (isoNow host) in
     rawText <- await (raw message) ;;
     bodyText <- extractPlainText rawText ;;
     let bodyText := cleanBodyText bodyText in
     let truncatedBody := truncateText bodyText 1000 in
     let emailData := mkEmailData from to subject date truncatedBody in
     let payload := buildMarkdownPayload emailData in
     let topic := generateTopic to in
     sendNotification this topic payload subject to ;;;
     emit (ConsoleLog [Str (lit "Email notification sent for: " ++ subject)]))
    (fun error =>
       emit (ConsoleError [Str (lit "Email processing failed:"); Err error]) ;;;
       throw error).

(** The exported handler [email(message, env, ctx)]. *)
Definition email (message : Message) (e : Env) : M unit :=
  tryCatch
    (processor <- newEmailProcessor e ;;
     processEmail processor message)
    (fun error =>
       emit (ConsoleError [Str (lit "Worker email handler failed:"); Err error])).

End WithHost.

(* ================================================================== *)
(** ** The vocabulary of the statements                               *)
(* ================================================================== *)

(** What the theorems below say about the worker is worded with the
    definitions of this part: the functions that the specification
    describes in words, the notions its sentences use, and the messages,
    environments and hosts of the examples. *)

(** *** sanitizeHeader *)

(** Each carriage return and line feed replaced with a space. *)
Definition breaksToSpaces (s : jsstring) : jsstring :=
  List.map (fun c => if (c =? CR)%N || (c =? LF)%N then SP else c) s.

(** Every run of white space collapsed to one space: a white-space code
    unit followed by another is dropped, the last of a run becomes a
    space. *)
Fixpoint collapseRuns (s : jsstring) : jsstring :=
  match s with
  | [] => []
  | c :: t =>
      if isWhiteSpace c then
        match t with
        | c' :: _ => if isWhiteSpace c' then collapseRuns t
                     else SP :: collapseRuns t
        | [] => [SP]
        end
      else c :: collapseRuns t
  end.

(** *** split on a one-character separator *)

(** The code units other than [x]. *)
Definition isNot (x : N) : N -> bool := fun c => negb (c =? x)%N.

(** *** cleanBodyText *)

(** The message of the repository's own test of [cleanBodyText]. *)
Definition quotedReplyExample : jsstring :=
  lit "Line 1" ++ [LF] ++ lit "> quoted" ++ [LF] ++ lit "Line 2".

(** *** generateTopic *)

(** The character [@]. *)
Definition AT : N := 64.

(** Every dot replaced with a dash. *)
Definition dotsToDashes (s : jsstring) : jsstring :=
  List.map (fun c => if (c =? 46)%N then 45%N else c) s.

(** The topic as the specification words it: the whole text after the first
    [@], dots replaced. *)
Definition topicAfterFirstAt (email : jsstring) : jsstring :=
  match dropWhile (isNot AT) email with
  | [] => lit "unknown"
  | _ :: domain => if falsy domain then lit "unknown" else dotsToDashes domain
  end.

(** *** decodeQuotedPrintable *)

(** The character [=]. *)
Definition EQUALS : N := 61.

(** A soft line break at the start of [s]: [=] then an optional carriage
    return then a line feed. *)
Definition softBreakAt (s : jsstring) : bool :=
  startsWith s [EQUALS; LF] || startsWith s [EQUALS; CR; LF].

(** The byte written by two hexadecimal digits. *)
Definition hexPair (h1 h2 : N) : option N :=
  match hexValue h1, hexValue h2 with
  | Some a, Some b => Some (16 * a + b)%N
  | _, _ => None
  end.

(** An escape at the start of [s]: [=] then two hexadecimal digits. *)
Definition escapeAt (s : jsstring) : option N :=
  match s with
  | c0 :: h1 :: h2 :: _ => if (c0 =? EQUALS)%N then hexPair h1 h2 else None
  | _ => None
  end.

(** The text with its soft line breaks removed. *)
Fixpoint removeSoftBreaks (s : jsstring) : jsstring :=
  match s with
  | [] => []
  | c0 :: r =>
      match r with
      | [] => [c0]
      | c1 :: r1 =>
          if (c0 =? EQUALS)%N && (c1 =? LF)%N then removeSoftBreaks r1
          else
            match r1 with
            | c2 :: r2 =>
                if (c0 =? EQUALS)%N && (c1 =? CR)%N && (c2 =? LF)%N
                then removeSoftBreaks r2
                else c0 :: removeSoftBreaks r
            | [] => c0 :: removeSoftBreaks r
            end
      end
  end.

(** The text with each escape replaced by the character of that code. *)
Fixpoint decodeEscapes (s : jsstring) : jsstring :=
  match s with
  | [] => []
  | c0 :: r =>
      match r with
      | h1 :: h2 :: r2 =>
          match (if (c0 =? EQUALS)%N then hexPair h1 h2 else None) with
          | Some v => v :: decodeEscapes r2
          | None => c0 :: decodeEscapes r
          end
      | _ => c0 :: decodeEscapes r
      end
  end.

(** *** decodeBase64 *)

(** The input with all its white space stripped. *)
Definition stripWhiteSpace (s : jsstring) : jsstring :=
  filter (fun c => negb (isWhiteSpace c)) s.

(** What [atob] throws. *)
Definition decodeFailure : exn :=
  mkExn (lit "InvalidCharacterError")
        (lit "The string to be decoded is not correctly encoded.").

(** *** sendNotification *)

(** The URL of [sendNotification]: the server without its final slash, a
    slash, the topic. *)
Definition notificationUrl (server topic : jsstring) : jsstring :=
  replaceFirst (re_at_end (lit "/")) (fun _ => []) server ++ lit "/" ++ topic.

(** The [init] object: method, headers and body. *)
Definition notificationRequest (payload subject to : jsstring) : request :=
  mkRequest (lit "POST")
    [ (lit "Title", lit "Email: " ++ sanitizeHeader subject);
      (lit "Priority", lit "4");
      (lit "Tags", lit "email," ++ sanitizeHeader to);
      (lit "Markdown", lit "yes") ]
    payload.

(** The environment of the repository's tests, with a final slash. *)
Definition exampleEnv : Env := mkEnv (Some (lit "https://ntfy.example.com/")).

(** A rejection of [fetch]. *)
Definition transportError : exn := mkExn (lit "TypeError") (lit "fetch failed").

(** A host whose every request fails at the transport level. *)
Definition offlineHost : Host :=
  mkHost (fun _ _ => Throw transportError) (lit "2025-06-27T12:00:00.000Z").

(** *** processEmail and the exported handler *)

(** A message without any metadata. *)
Definition bareMessage : Message :=
  mkMessage None None (fun _ => Some []) (Normal (lit "Hello world!")).

(** A host that answers every request with 200. *)
Definition onlineHost : Host :=
  mkHost (fun _ _ => Normal (mkResponse true 200 (lit "OK")))
         (lit "2025-06-27T12:00:00.000Z").

(** The attempt that the exported handler guards. *)
Definition handling (host : Host) (message : Message) (e : Env) : M unit :=
  processor <- newEmailProcessor e ;;
  processEmail host processor message.

(** What the constructor throws when [NTFY_SERVER] is missing. *)
Definition configurationError : exn :=
  mkExn (lit "Error") (lit "NTFY_SERVER environment variable is required").

(** The log entry of the exported handler for a failure. *)
Definition handlerFailed (err : exn) : event :=
  ConsoleError [Str (lit "Worker email handler failed:"); Err err].

(** *** extractPlainText on a message without boundary *)

(** The blank line that ends a header block. *)
Definition BLANK_LINE : jsstring := [CR; LF; CR; LF].

(** *** extractPlainText on a multipart message *)

(** The words that [extractPlainText] looks for in a part. *)
Definition TEXT_PLAIN : jsstring := lit "Content-Type: text/plain".

(** The header block of a part: what precedes its first blank line, and the
    whole part when it has none. *)
Definition headerBlock (part : jsstring) : jsstring :=
  let i := indexOf part BLANK_LINE in
  if (i =? -1)%Z then part else slice part 0 (Some i).

(** The encoding that [extractPartBody] finds for a part: the first
    [Content-Transfer-Encoding:] token anywhere in it, in lower case, and
    [7bit] when there is none. *)
Definition partEncoding (part : jsstring) : jsstring :=
  match search re_encoding part with
  | Some e => toLowerCase e
  | None => lit "7bit"
  end.

(** The body region of a part: what follows its first blank line, trimmed,
    a final [--] removed, trimmed again; [None] when there is no blank line
    or nothing is left. *)
Definition partRegion (part : jsstring) : option jsstring :=
  let bodyStart := indexOf part BLANK_LINE in
  if (bodyStart =? -1)%Z then None
  else
    let body := trim (slice part (bodyStart + 4) None) in
    let body := trim (replaceFirst (re_at_end (lit "--")) (fun _ => []) body) in
    if falsy body then None else Some body.

(** The decoding of a body under an encoding; base64 that does not decode is
    left as it is. *)
Definition decodeBody (encoding body : jsstring) : jsstring :=
  if str_eqb encoding (lit "quoted-printable") then decodeQuotedPrintable body
  else if str_eqb encoding (lit "base64") then
         match forgivingBase64Decode (stripWhiteSpace body) with
         | Some decoded => decoded
         | None => body
         end
       else body.

(** A part yields [body] when [extractPartBody] returns it and it is not
    empty; it yields nothing when [extractPartBody] returns [null] or the
    empty string. *)
Definition yields (part body : jsstring) : Prop :=
  outcome (extractPartBody part) = Normal (Some body) /\ body <> [].

(** See [yields]. *)
Definition yieldsNothing (part : jsstring) : Prop :=
  outcome (extractPartBody part) = Normal None
  \/ outcome (extractPartBody part) = Normal (Some []).

(** A line break of a raw message. *)
Definition CRLF : jsstring := [CR; LF].

(** A multipart message whose only part is HTML that quotes the words
    [Content-Type: text/plain] in its body. *)
Definition htmlQuotingPlain : jsstring :=
  lit "Content-Type: multipart/alternative; boundary=frontier" ++ CRLF ++ CRLF
  ++ lit "--frontier" ++ CRLF
  ++ lit "Content-Type: text/html" ++ CRLF ++ CRLF
  ++ lit "<p>Content-Type: text/plain</p>" ++ CRLF
  ++ lit "--frontier--".

(** A multipart message with an HTML part and a quoted-printable plain
    part. *)
Definition alternativeExample : jsstring :=
  lit "Content-Type: multipart/alternative; boundary=" ++ [34%N] ++ lit "sep"
  ++ [34%N] ++ CRLF ++ CRLF
  ++ lit "--sep" ++ CRLF
  ++ lit "Content-Type: text/html" ++ CRLF ++ CRLF
  ++ lit "<p>Hello</p>" ++ CRLF
  ++ lit "--sep" ++ CRLF
  ++ lit "Content-Type: text/plain" ++ CRLF
  ++ lit "Content-Transfer-Encoding: quoted-printable" ++ CRLF ++ CRLF
  ++ lit "Hello=2C=20World=21" ++ CRLF
  ++ lit "--sep--".

(** A multipart message without any plain part. *)
Definition htmlOnly : jsstring :=
  lit "Content-Type: multipart/alternative; boundary=sep" ++ CRLF ++ CRLF
  ++ lit "--sep" ++ CRLF
  ++ lit "Content-Type: text/html" ++ CRLF ++ CRLF
  ++ lit "<p>Hello</p>" ++ CRLF
  ++ lit "--sep--".

(** *** decodeBase64 after an encode *)

(** The character of a six-bit value (RFC 4648, table 1). *)
Definition b64Char (v : N) : N :=
  if (v <? 26)%N then (v + 65)%N
  else if (v <? 52)%N then (v + 71)%N
  else if (v <? 62)%N then (v - 4)%N
  else if (v =? 62)%N then 43%N
  else 47%N.

(** The six-bit values of a byte sequence, the last group filled up with
    zero bits, and the padding that completes the last group of four. *)
Fixpoint encodeSextets (bytes : list N) : list N :=
  match bytes with
  | a :: b :: c :: rest =>
      let w := (a * 65536 + b * 256 + c)%N in
      (w / 262144)%N :: ((w / 4096) mod 64)%N :: ((w / 64) mod 64)%N
        :: (w mod 64)%N :: encodeSextets rest
  | [a; b] =>
      let w := ((a * 256 + b) * 4)%N in
      [(w / 4096)%N; ((w / 64) mod 64)%N; (w mod 64)%N]
  | [a] =>
      let w := (a * 16)%N in
      [(w / 64)%N; (w mod 64)%N]
  | [] => []
  end.

(** The padding: one [=] for a last group of two bytes, two for one. *)
Fixpoint encodePadding (bytes : list N) : jsstring :=
  match bytes with
  | _ :: _ :: _ :: rest => encodePadding rest
  | [_; _] => [EQUALS]
  | [_] => [EQUALS; EQUALS]
  | [] => []
  end.

(** The base64 encode of a byte sequence: what [btoa] gives for the string
    of these bytes. *)
Definition base64Encode (bytes : list N) : jsstring :=
  List.map b64Char (encodeSextets bytes) ++ encodePadding bytes.

(** *** Normal forms, payloads and requests *)

(** A text whose only white space is single spaces: every white-space code
    unit is a space and is not followed by white space. *)
Fixpoint singleSpaced (s : jsstring) : bool :=
  match s with
  | [] => true
  | c :: t =>
      (if isWhiteSpace c
       then (c =? SP)%N && match t with
                           | c' :: _ => negb (isWhiteSpace c')
                           | [] => true
                           end
       else true)
      && singleSpaced t
  end.

(** The lines of the payload above the rule: date, sender, recipient and
    subject. *)
Definition payloadHead (d : EmailData) : jsstring :=
  lit "**Date:** " ++ sanitizeHeader (ed_date d) ++ [LF; LF]
  ++ lit "**From:** " ++ sanitizeHeader (ed_from d) ++ lit "  " ++ [LF]
  ++ lit "**To:** " ++ sanitizeHeader (ed_to d) ++ lit "  " ++ [LF]
  ++ lit "**Subject:** " ++ sanitizeHeader (ed_subject d) ++ lit "  "
  ++ [LF; LF].

(** The marker that [truncateText] appends. *)
Definition truncationMarker : jsstring := [LF; LF] ++ lit "*...truncated*".

(** The warning of [decodeBase64]. *)
Definition decodeWarning : event :=
  ConsoleWarn [Str (lit "Failed to decode base64:"); Err decodeFailure].

(** The number of outbound requests among the events of a run. *)
Fixpoint fetchCount (l : list event) : nat :=
  match l with
  | [] => 0
  | Fetch _ _ :: r => S (fetchCount r)
  | _ :: r => fetchCount r
  end.

(** The last code unit of a text is not [c]. *)
Definition endsWithout (c : N) (s : jsstring) : Prop :=
  forall init, s <> init ++ [c].

(* ================================================================== *)
(** ** The string primitives: basic facts                              *)
(* ================================================================== *)

Section ReplaceFacts.
Variable A : Type.
Variable re : jsstring -> option (nat * A).
Variable by_ : A -> jsstring.

(** Skipping the rest of a match is dropping that many code units. *)
Lemma replace_from_skipn (n : nat) (s : jsstring) :
  replace_from re by_ n s = replaceAll re by_ (skipn n s).
Proof.
  revert n; induction s as [|c t IH]; intros [|k]; simpl; auto.
Qed.

Lemma replaceAll_nil : replaceAll re by_ [] = [].
Proof. reflexivity. Qed.

Lemma replaceAll_match c t k cap :
  re (c :: t) = Some (S k, cap) ->
  replaceAll re by_ (c :: t) = by_ cap ++ replaceAll re by_ (skipn k t).
Proof.
  intros H. unfold replaceAll at 1. simpl. rewrite H. simpl.
  now rewrite replace_from_skipn.
Qed.

Lemma replaceAll_nomatch c t :
  re (c :: t) = None ->
  replaceAll re by_ (c :: t) = c :: replaceAll re by_ t.
Proof.
  intros H. unfold replaceAll. simpl. now rewrite H.
Qed.

(** What holds of every replacement and of every code unit that no match
    covers holds of the whole result. *)
Lemma replaceAll_Forall (P : N -> Prop) :
  (forall s n cap, re s = Some (n, cap) -> Forall P (by_ cap)) ->
  (forall c t, re (c :: t) = None -> P c) ->
  forall n s, Forall P (replace_from re by_ n s).
Proof.
  intros Hby Hkeep n s; revert n.
  induction s as [|c t IH]; intros [|k]; simpl; auto.
  destruct (re (c :: t)) as [[n cap]|] eqn:E.
  - apply Forall_app; split; eauto.
  - constructor; eauto.
Qed.
End ReplaceFacts.

Lemma startsWith_app (s p : jsstring) :
  startsWith s p = true <-> exists r, s = p ++ r.
Proof.
  revert s; induction p as [|x p IH]; intros s; simpl.
  - split; [intros _; now exists s | reflexivity].
  - destruct s as [|y s].
    + split; [discriminate | intros [r Hr]; discriminate].
    + rewrite andb_true_iff, N.eqb_eq, IH. split.
      * intros [-> [r ->]]. now exists r.
      * intros [r Hr]. injection Hr as -> ->. split; [reflexivity | now exists r].
Qed.

Lemma startsWith_refl_app (p r : jsstring) : startsWith (p ++ r) p = true.
Proof. apply startsWith_app. now exists r. Qed.

Lemma includes_In (s : jsstring) (x : N) :
  includes s [x] = true <-> In x s.
Proof.
  induction s as [|y s IH]; simpl.
  - split; [discriminate | tauto].
  - rewrite orb_true_iff, IH, andb_true_r, N.eqb_eq. split; intros [H|H]; auto.
Qed.

Lemma trimStart_dropWhile (s : jsstring) : trimStart s = dropWhile isWhiteSpace s.
Proof. induction s as [|c t IH]; simpl; auto. now rewrite IH. Qed.

Lemma trimStart_incl (s : jsstring) (c : N) : In c (trimStart s) -> In c s.
Proof.
  induction s as [|x t IH]; simpl; auto.
  destruct (isWhiteSpace x); simpl; auto.
Qed.

Lemma trim_incl (s : jsstring) (c : N) : In c (trim s) -> In c s.
Proof.
  unfold trim, trimEnd. intros H.
  apply trimStart_incl.
  apply in_rev in H. apply trimStart_incl in H. now apply in_rev.
Qed.

Lemma trim_nil : trim [] = [].
Proof. reflexivity. Qed.

(* ================================================================== *)
(** ** sanitizeHeader                                                  *)
(* ================================================================== *)

Lemma replace_crlf_breaksToSpaces (s : jsstring) :
  replaceAll re_crlf (fun _ => [SP]) s = breaksToSpaces s.
Proof.
  induction s as [|c t IH]; auto.
  unfold replaceAll in *. simpl.
  destruct ((c =? CR)%N || (c =? LF)%N); simpl; now rewrite IH.
Qed.

Lemma collapseRuns_ws (c : N) (t : jsstring) :
  isWhiteSpace c = true ->
  collapseRuns (c :: t) = SP :: collapseRuns (dropWhile isWhiteSpace t).
Proof.
  revert c; induction t as [|c' t IH]; intros c Hc.
  - simpl. now rewrite Hc.
  - change (collapseRuns (c :: c' :: t))
      with (if isWhiteSpace c
            then if isWhiteSpace c' then collapseRuns (c' :: t)
                 else SP :: collapseRuns (c' :: t)
            else c :: collapseRuns (c' :: t)).
    rewrite Hc. cbn [dropWhile].
    destruct (isWhiteSpace c') eqn:Hc'; auto.
Qed.

Lemma skipn_takeWhile (p : N -> bool) (s : jsstring) :
  skipn (List.length (takeWhile p s)) s = dropWhile p s.
Proof.
  induction s as [|c t IH]; simpl; auto.
  destruct (p c); simpl; auto.
Qed.

Lemma dropWhile_length (p : N -> bool) (s : jsstring) :
  (List.length (dropWhile p s) <= List.length s)%nat.
Proof.
  induction s as [|c t IH]; simpl; auto.
  destruct (p c); simpl; lia.
Qed.

Lemma replace_ws_run_collapseRuns (s : jsstring) :
  replaceAll re_ws_run (fun _ => [SP]) s = collapseRuns s.
Proof.
  remember (List.length s) as n eqn:Hn.
  revert s Hn; induction n as [n IH] using lt_wf_ind; intros s Hn.
  destruct s as [|c t]; auto.
  destruct (isWhiteSpace c) eqn:Hc.
  - rewrite (@replaceAll_match _ re_ws_run _ c t
               (List.length (takeWhile isWhiteSpace t)) tt)
      by (simpl; now rewrite Hc).
    rewrite skipn_takeWhile, collapseRuns_ws by assumption.
    simpl. f_equal.
    apply (IH (List.length (dropWhile isWhiteSpace t))); auto.
    subst n. simpl. pose proof (dropWhile_length isWhiteSpace t). lia.
  - rewrite replaceAll_nomatch by (simpl; now rewrite Hc).
    simpl. rewrite Hc. f_equal.
    apply (IH (List.length t)); auto. subst n; simpl; lia.
Qed.

(** After the collapse the only white space left is the space. *)
Lemma collapseRuns_only_spaces (s : jsstring) (c : N) :
  In c (collapseRuns s) -> isWhiteSpace c = true -> c = SP.
Proof.
  rewrite <- replace_ws_run_collapseRuns. unfold replaceAll.
  intros Hin Hc.
  assert (F : Forall (fun x => isWhiteSpace x = true -> x = SP)
                (replace_from re_ws_run (fun _ => [SP]) 0 s)).
  { apply replaceAll_Forall.
    - intros _ _ _ _. constructor; auto.
    - intros x t Hx Hws. simpl in Hx. rewrite Hws in Hx. discriminate. }
  rewrite Forall_forall in F. auto.
Qed.

(** C9.  For every header value, [sanitizeHeader] is: carriage returns and
    line feeds replaced with spaces, then white-space runs collapsed to one
    space, then trimmed; its result contains neither a carriage return nor
    a line feed; and [sanitizeHeader("  a\r\nb ")] is ["a b"]. *)
Theorem sanitizeHeader_spec :
  (forall value,
      sanitizeHeader value = trim (collapseRuns (breaksToSpaces value)))
  /\ (forall value,
         ~ In CR (sanitizeHeader value) /\ ~ In LF (sanitizeHeader value))
  /\ sanitizeHeader (lit "  a" ++ [CR; LF] ++ lit "b ") = lit "a b".
Proof.
  assert (E : forall value,
             sanitizeHeader value = trim (collapseRuns (breaksToSpaces value))).
  { intros value. unfold sanitizeHeader.
    destruct value as [|c t]; [reflexivity|]. cbn [falsy].
    now rewrite replace_crlf_breaksToSpaces, replace_ws_run_collapseRuns. }
  split; [exact E|]. split; [|reflexivity].
  intros value. rewrite E.
  split; intros H; apply trim_incl in H;
    apply collapseRuns_only_spaces in H; try reflexivity; discriminate H.
Qed.

(* ================================================================== *)
(** ** split on a one-character separator                              *)
(* ================================================================== *)

Lemma split_from_single (x : N) (s : jsstring) :
  split_from [x] 0 s =
  (takeWhile (isNot x) s,
   match dropWhile (isNot x) s with
   | [] => []
   | _ :: rest => split rest [x]
   end).
Proof.
  induction s as [|c t IH]; [reflexivity|].
  cbn [split_from startsWith takeWhile dropWhile List.length Nat.pred].
  unfold isNot at 1 3. rewrite (N.eqb_sym c x), andb_true_r.
  destruct (N.eqb x c); cbn [negb].
  - unfold split. now destruct (split_from [x] 0 t).
  - rewrite IH. reflexivity.
Qed.

Lemma split_single (x : N) (s : jsstring) :
  split s [x] =
  takeWhile (isNot x) s ::
  match dropWhile (isNot x) s with
  | [] => []
  | _ :: rest => split rest [x]
  end.
Proof. unfold split at 1. now rewrite split_from_single. Qed.

Lemma takeWhile_isNot_all (x : N) (s : jsstring) :
  ~ In x s -> takeWhile (isNot x) s = s /\ dropWhile (isNot x) s = [].
Proof.
  induction s as [|c t IH]; simpl; auto.
  intros H. unfold isNot at 1 3.
  destruct (N.eqb_spec c x) as [->|Hne]; [tauto|]. simpl.
  destruct IH as [-> ->]; tauto.
Qed.

Lemma takeWhile_isNot_app (x : N) (s r : jsstring) :
  ~ In x s ->
  takeWhile (isNot x) (s ++ x :: r) = s /\
  dropWhile (isNot x) (s ++ x :: r) = x :: r.
Proof.
  induction s as [|c t IH]; simpl; intros H; unfold isNot at 1 3.
  - now rewrite N.eqb_refl.
  - destruct (N.eqb_spec c x) as [->|Hne]; [tauto|]. simpl.
    destruct IH as [-> ->]; tauto.
Qed.

(** A string without the separator is a single field. *)
Lemma split_no_separator (x : N) (s : jsstring) :
  ~ In x s -> split s [x] = [s].
Proof.
  intros H. rewrite split_single.
  now destruct (takeWhile_isNot_all x s H) as [-> ->].
Qed.

(* ================================================================== *)
(** ** cleanBodyText                                                   *)
(* ================================================================== *)

(** No line feed survives the first step, so the filter on lines sees one
    line only: the result of [cleanBodyText] never has two lines. *)
Lemma cleanBodyText_one_line (text : jsstring) : ~ In LF (cleanBodyText text).
Proof.
  unfold cleanBodyText. destruct (falsy text); [simpl; tauto|].
  rewrite replace_ws_run_collapseRuns.
  set (s := trim (collapseRuns text)).
  assert (Hs : ~ In LF s).
  { intros H. apply trim_incl, collapseRuns_only_spaces in H;
      [discriminate H | reflexivity]. }
  rewrite (split_no_separator LF s Hs). cbn [filter].
  intros H. apply trim_incl in H.
  destruct (negb (startsWith (trim s) (lit ">"))); simpl in H; tauto.
Qed.

(** C1.  On ["Line 1\n> quoted\nLine 2"] the code returns
    ["Line 1 > quoted Line 2"]: the quoted line is kept and the line feeds
    are gone, where the specification (and the repository's test) give
    ["Line 1\nLine 2"]. *)
Theorem cleanBodyText_keeps_quoted_line :
  cleanBodyText quotedReplyExample = lit "Line 1 > quoted Line 2"
  /\ cleanBodyText quotedReplyExample <> lit "Line 1" ++ [LF] ++ lit "Line 2".
Proof.
  split; [reflexivity|].
  intros H. apply (@cleanBodyText_one_line quotedReplyExample).
  rewrite H. apply in_or_app. right. now left.
Qed.

(* ================================================================== *)
(** ** generateTopic                                                   *)
(* ================================================================== *)

Lemma replace_dot_dotsToDashes (s : jsstring) :
  replaceAll re_dot (fun _ => lit "-") s = dotsToDashes s.
Proof.
  induction s as [|c t IH]; auto.
  unfold replaceAll in *. simpl.
  destruct (c =? 46)%N; simpl; now rewrite IH.
Qed.

(** C2, as stated, fails on an address with a second [@]: the code stops the
    domain there. *)
Lemma generateTopic_second_at :
  generateTopic (lit "a@b.c@d.e") = lit "b-c"
  /\ topicAfterFirstAt (lit "a@b.c@d.e") = lit "b-c@d-e"
  /\ generateTopic (lit "a@b.c@d.e") <> topicAfterFirstAt (lit "a@b.c@d.e").
Proof. repeat split; try reflexivity. discriminate. Qed.

(** C2, amended.  An address without [@] gives ["unknown"]; otherwise the
    topic is the text between the first [@] and the next one (or the end of
    the address), dots replaced by dashes, and ["unknown"] when that text is
    empty.  [generateTopic("user@sub.example.com")] is ["sub-example-com"]
    and [generateTopic("not-an-email")] is ["unknown"]. *)
Theorem generateTopic_spec :
  (forall email, ~ In AT email -> generateTopic email = lit "unknown")
  /\ (forall local rest,
         ~ In AT local ->
         generateTopic (local ++ AT :: rest) =
         let domain := takeWhile (isNot AT) rest in
         if falsy domain then lit "unknown" else dotsToDashes domain)
  /\ generateTopic (lit "user@sub.example.com") = lit "sub-example-com"
  /\ generateTopic (lit "not-an-email") = lit "unknown".
Proof.
  split; [|split; [|split; reflexivity]].
  - intros email H. unfold generateTopic.
    destruct (includes email (lit "@")) eqn:E.
    + apply includes_In in E. contradiction.
    + now rewrite orb_true_r.
  - intros local rest H. unfold generateTopic.
    assert (E : includes (local ++ AT :: rest) (lit "@") = true).
    { apply includes_In, in_or_app. right. now left. }
    rewrite E. replace (falsy (local ++ AT :: rest)) with false
      by (now destruct local).
    cbn [orb negb]. change (lit "@") with [AT].
    rewrite split_single.
    destruct (takeWhile_isNot_app AT local rest H) as [E1 E2]; rewrite E1, E2.
    rewrite split_single. cbn [nth_error].
    rewrite replace_dot_dotsToDashes. unfold truthy.
    now destruct (takeWhile (isNot AT) rest).
Qed.

Lemma generateTopic_spec_witness :
  (~ In AT (lit "nobody") /\ generateTopic (lit "nobody") = lit "unknown")
  /\ (~ In AT (lit "a") /\
      generateTopic (lit "a" ++ AT :: lit "b.c@d.e") = lit "b-c").
Proof.
  assert (H1 : ~ In AT (lit "nobody")).
  { simpl. intros H. repeat destruct H as [H|H]; try discriminate H; exact H. }
  assert (H2 : ~ In AT (lit "a")).
  { simpl. intros H. repeat destruct H as [H|H]; try discriminate H; exact H. }
  split; (split; [assumption|]).
  - exact (proj1 generateTopic_spec _ H1).
  - exact (proj1 (proj2 generateTopic_spec) _ (lit "b.c@d.e") H2).
Defined.

(* ================================================================== *)
(** ** decodeQuotedPrintable                                           *)
(* ================================================================== *)

Lemma removeSoftBreaks_eq (c0 : N) (r : jsstring) :
  removeSoftBreaks (c0 :: r) =
  match r with
  | [] => [c0]
  | c1 :: r1 =>
      if (c0 =? EQUALS)%N && (c1 =? LF)%N then removeSoftBreaks r1
      else
        match r1 with
        | c2 :: r2 =>
            if (c0 =? EQUALS)%N && (c1 =? CR)%N && (c2 =? LF)%N
            then removeSoftBreaks r2
            else c0 :: removeSoftBreaks r
        | [] => c0 :: removeSoftBreaks r
        end
  end.
Proof. destruct r as [|c1 [|c2 r2]]; reflexivity. Qed.

Lemma decodeEscapes_eq (c0 : N) (r : jsstring) :
  decodeEscapes (c0 :: r) =
  match escapeAt (c0 :: r) with
  | Some v => v :: decodeEscapes (skipn 2 r)
  | None => c0 :: decodeEscapes r
  end.
Proof.
  destruct r as [|h1 [|h2 r2]]; reflexivity.
Qed.

Lemma removeSoftBreaks_keep (c : N) (t : jsstring) :
  softBreakAt (c :: t) = false ->
  removeSoftBreaks (c :: t) = c :: removeSoftBreaks t.
Proof.
  intros H. rewrite removeSoftBreaks_eq.
  unfold softBreakAt in H. cbn [startsWith] in H.
  rewrite (N.eqb_sym EQUALS c) in H.
  destruct t as [|c1 r1]; [reflexivity|].
  rewrite (N.eqb_sym LF c1), (N.eqb_sym CR c1), andb_true_r in H.
  apply orb_false_elim in H as [H1 H2]. rewrite H1.
  destruct r1 as [|c2 r2]; [reflexivity|].
  rewrite (N.eqb_sym LF c2), andb_true_r, andb_assoc in H2.
  now rewrite H2.
Qed.

Lemma removeSoftBreaks_lf (t : jsstring) :
  removeSoftBreaks (EQUALS :: LF :: t) = removeSoftBreaks t.
Proof. reflexivity. Qed.

Lemma removeSoftBreaks_crlf (t : jsstring) :
  removeSoftBreaks (EQUALS :: CR :: LF :: t) = removeSoftBreaks t.
Proof. reflexivity. Qed.

Lemma decodeEscapes_keep (c : N) (t : jsstring) :
  escapeAt (c :: t) = None ->
  decodeEscapes (c :: t) = c :: decodeEscapes t.
Proof. intros H. now rewrite decodeEscapes_eq, H. Qed.

Lemma decodeEscapes_escape (h1 h2 v : N) (t : jsstring) :
  hexPair h1 h2 = Some v ->
  decodeEscapes (EQUALS :: h1 :: h2 :: t) = v :: decodeEscapes t.
Proof.
  intros H. rewrite decodeEscapes_eq. cbn [escapeAt skipn].
  now rewrite N.eqb_refl, H.
Qed.

Lemma hexValue_lt (c v : N) : hexValue c = Some v -> (v < 16)%N.
Proof.
  unfold hexValue.
  destruct (N.leb_spec 48 c), (N.leb_spec c 57); cbn [andb];
    try (intros [= <-]; lia);
    destruct (N.leb_spec 65 c), (N.leb_spec c 70); cbn [andb];
    try (intros [= <-]; lia);
    destruct (N.leb_spec 97 c), (N.leb_spec c 102); cbn [andb];
    try (intros [= <-]; lia); discriminate.
Qed.

(** [String.fromCharCode(parseInt(hex, 16))] on the two captured digits. *)
Lemma fromCharCode_parseInt16 (h1 h2 v : N) :
  hexPair h1 h2 = Some v ->
  fromCharCode (parseInt16 [h1; h2]) = [v].
Proof.
  unfold hexPair, parseInt16. cbn [parseHex].
  destruct (hexValue h1) as [a|] eqn:E1; [|discriminate].
  destruct (hexValue h2) as [b|] eqn:E2; [|discriminate].
  intros [= <-]. cbn [fromCharCode].
  apply hexValue_lt in E1. apply hexValue_lt in E2.
  rewrite N.mod_small by lia. f_equal; lia.
Qed.

Lemma re_hex_escape_escapeAt (s : jsstring) :
  match s with
  | c0 :: h1 :: h2 :: _ =>
      match escapeAt s with
      | Some v => re_hex_escape s = Some (3, [h1; h2]) /\ hexPair h1 h2 = Some v
                  /\ c0 = EQUALS
      | None => re_hex_escape s = None
      end
  | _ => re_hex_escape s = None /\ escapeAt s = None
  end.
Proof.
  destruct s as [|c0 [|h1 [|h2 r]]]; auto.
  cbn [escapeAt re_hex_escape]. unfold hexPair, isHexDigit.
  destruct (N.eqb_spec c0 EQUALS) as [->|Hne].
  - change (61 =? 61)%N with true.
    destruct (hexValue h1), (hexValue h2); auto.
  - replace (c0 =? 61)%N with false; auto.
    symmetry. now apply N.eqb_neq.
Qed.

Lemma replace_soft_break_removeSoftBreaks (s : jsstring) :
  replaceAll re_soft_break (fun _ => []) s = removeSoftBreaks s.
Proof.
  remember (List.length s) as n eqn:Hn.
  revert s Hn; induction n as [n IH] using lt_wf_ind; intros s Hn.
  destruct s as [|c0 r]; auto.
  destruct (re_soft_break (c0 :: r)) as [[k []]|] eqn:E.
  - destruct r as [|c1 r1]; [discriminate|]. cbn [re_soft_break] in E.
    change 61%N with EQUALS in E.
    destruct (N.eqb_spec c0 EQUALS) as [->|]; [|discriminate].
    destruct (N.eqb_spec c1 LF) as [->|].
    + injection E as <-.
      rewrite (@replaceAll_match _ re_soft_break _ EQUALS (LF :: r1) 1 tt)
        by reflexivity.
      rewrite removeSoftBreaks_lf. cbn [skipn app].
      apply (IH (List.length r1)); auto. subst n; simpl; lia.
    + destruct (N.eqb_spec c1 CR) as [->|]; [|discriminate].
      destruct r1 as [|c2 r2]; [discriminate|].
      destruct (N.eqb_spec c2 LF) as [->|]; [|discriminate].
      injection E as <-.
      rewrite (@replaceAll_match _ re_soft_break _ EQUALS (CR :: LF :: r2) 2 tt)
        by reflexivity.
      rewrite removeSoftBreaks_crlf. cbn [skipn app].
      apply (IH (List.length r2)); auto. subst n; simpl; lia.
  - rewrite replaceAll_nomatch by assumption.
    rewrite removeSoftBreaks_keep.
    + f_equal. apply (IH (List.length r)); auto. subst n; simpl; lia.
    + unfold softBreakAt. cbn [startsWith].
      destruct r as [|c1 r1]; [now rewrite !andb_false_r|].
      cbn [re_soft_break] in E. change 61%N with EQUALS in E.
      rewrite (N.eqb_sym EQUALS c0), (N.eqb_sym LF c1), (N.eqb_sym CR c1).
      destruct (c0 =? EQUALS)%N; auto.
      destruct (c1 =? LF)%N; [discriminate|].
      destruct (c1 =? CR)%N; auto.
      destruct r1 as [|c2 r2]; auto.
      rewrite (N.eqb_sym LF c2).
      destruct (c2 =? LF)%N; [discriminate|auto].
Qed.

Lemma replace_hex_escape_decodeEscapes (s : jsstring) :
  replaceAll re_hex_escape (fun hex => fromCharCode (parseInt16 hex)) s
  = decodeEscapes s.
Proof.
  remember (List.length s) as n eqn:Hn.
  revert s Hn; induction n as [n IH] using lt_wf_ind; intros s Hn.
  destruct s as [|c0 r]; auto.
  pose proof (re_hex_escape_escapeAt (c0 :: r)) as H.
  destruct r as [|h1 [|h2 r2]].
  - reflexivity.
  - reflexivity.
  - destruct (escapeAt (c0 :: h1 :: h2 :: r2)) as [v|] eqn:E.
    + destruct H as (H1 & H2 & ->).
      rewrite (@replaceAll_match _ re_hex_escape _ _ _ 2 _ H1).
      rewrite (@fromCharCode_parseInt16 h1 h2 v H2).
      rewrite (@decodeEscapes_escape h1 h2 v r2 H2). cbn [skipn app]. f_equal.
      apply (IH (List.length r2)); auto. subst n; simpl; lia.
    + rewrite replaceAll_nomatch by assumption.
      rewrite decodeEscapes_keep by assumption. f_equal.
      apply (IH (List.length (h1 :: h2 :: r2))); auto. subst n; simpl; lia.
Qed.

Lemma removeSoftBreaks_id (s : jsstring) :
  (forall k, softBreakAt (skipn k s) = false) -> removeSoftBreaks s = s.
Proof.
  induction s as [|c t IH]; intros H; auto.
  rewrite removeSoftBreaks_keep by (apply (H 0%nat)).
  f_equal. apply IH. intros k. apply (H (S k)).
Qed.

Lemma decodeEscapes_id (s : jsstring) :
  (forall k, escapeAt (skipn k s) = None) -> decodeEscapes s = s.
Proof.
  induction s as [|c t IH]; intros H; auto.
  rewrite decodeEscapes_keep by (apply (H 0%nat)).
  f_equal. apply IH. intros k. apply (H (S k)).
Qed.

(** C7.  [decodeQuotedPrintable] is the removal of the soft line breaks
    followed by the decoding of the [=XX] escapes; a text in which no [=]
    starts a soft line break or an escape is returned as it is; and
    [decodeQuotedPrintable("Hello=2C=20World=21=0A")] is
    ["Hello, World!\n"]. *)
Theorem decodeQuotedPrintable_spec :
  (forall input,
      decodeQuotedPrintable input = decodeEscapes (removeSoftBreaks input))
  /\ (forall input,
         (forall k, softBreakAt (skipn k input) = false
                    /\ escapeAt (skipn k input) = None) ->
         decodeQuotedPrintable input = input)
  /\ decodeQuotedPrintable (lit "Hello=2C=20World=21=0A")
     = lit "Hello, World!" ++ [LF].
Proof.
  assert (E : forall input,
             decodeQuotedPrintable input = decodeEscapes (removeSoftBreaks input)).
  { intros input. unfold decodeQuotedPrintable.
    destruct input as [|c t]; [reflexivity|]. cbn [falsy].
    now rewrite replace_soft_break_removeSoftBreaks,
      replace_hex_escape_decodeEscapes. }
  split; [exact E|]. split; [|reflexivity].
  intros input H. rewrite E.
  rewrite removeSoftBreaks_id by (intros k; apply H).
  apply decodeEscapes_id. intros k; apply H.
Qed.

Lemma decodeQuotedPrintable_spec_witness :
  (forall k, softBreakAt (skipn k (lit "a=b=")) = false
             /\ escapeAt (skipn k (lit "a=b=")) = None)
  /\ decodeQuotedPrintable (lit "a=b=") = lit "a=b=".
Proof.
  assert (H : forall k, softBreakAt (skipn k (lit "a=b=")) = false
                        /\ escapeAt (skipn k (lit "a=b=")) = None).
  { intros k. do 5 (destruct k as [|k]; [split; reflexivity|]).
    split; reflexivity. }
  split; [exact H|].
  exact (proj1 (proj2 decodeQuotedPrintable_spec) _ H).
Defined.

(* ================================================================== *)
(** ** Computations: how events and outcomes compose                   *)
(* ================================================================== *)

Lemma outcome_bind {A B} (m : M A) (k : A -> M B) :
  outcome (bind m k) =
  match outcome m with
  | Normal a => outcome (k a)
  | Throw e => Throw e
  end.
Proof.
  destruct m as [l [a|e]]; simpl; auto. now destruct (k a).
Qed.

Lemma events_bind {A B} (m : M A) (k : A -> M B) :
  events (bind m k) =
  events m ++ match outcome m with
              | Normal a => events (k a)
              | Throw _ => []
              end.
Proof.
  destruct m as [l [a|e]]; simpl; [now destruct (k a) | now rewrite app_nil_r].
Qed.

Lemma outcome_tryCatch {A} (m : M A) (h : exn -> M A) :
  outcome (tryCatch m h) =
  match outcome m with
  | Normal a => Normal a
  | Throw e => outcome (h e)
  end.
Proof.
  destruct m as [l [a|e]]; simpl; auto. now destruct (h e).
Qed.

Lemma events_tryCatch {A} (m : M A) (h : exn -> M A) :
  events (tryCatch m h) =
  events m ++ match outcome m with
              | Normal _ => []
              | Throw e => events (h e)
              end.
Proof.
  destruct m as [l [a|e]]; simpl; [now rewrite app_nil_r | now destruct (h e)].
Qed.

Lemma M_eta {A} (m : M A) : m = (events m, outcome m).
Proof. now destruct m. Qed.

(* ================================================================== *)
(** ** decodeBase64                                                    *)
(* ================================================================== *)

Lemma replace_ws_stripWhiteSpace (s : jsstring) :
  replaceAll re_ws (fun _ => []) s = stripWhiteSpace s.
Proof.
  induction s as [|c t IH]; auto.
  unfold replaceAll in *. simpl.
  destruct (isWhiteSpace c); simpl; now rewrite IH.
Qed.

Lemma decodeBase64_run (input : jsstring) :
  decodeBase64 input =
  match forgivingBase64Decode (stripWhiteSpace input) with
  | Some decoded => ([], Normal decoded)
  | None => ([ConsoleWarn [Str (lit "Failed to decode base64:");
                           Err decodeFailure]],
             Normal input)
  end.
Proof.
  unfold decodeBase64.
  destruct input as [|c t]; [reflexivity|]. cbn [falsy].
  rewrite replace_ws_stripWhiteSpace. unfold atob.
  now destruct (forgivingBase64Decode (stripWhiteSpace (c :: t))).
Qed.

Lemma decodeBase64_normal (input : jsstring) :
  exists v, outcome (decodeBase64 input) = Normal v.
Proof.
  rewrite decodeBase64_run.
  destruct (forgivingBase64Decode (stripWhiteSpace input)); simpl; eauto.
Qed.

(** C4.  [decodeBase64] never raises.  Its value is the decode of the input
    stripped of all white space when that decode succeeds, and the input
    itself, unchanged, when the decode fails (a warning is then logged). *)
Theorem decodeBase64_soft_failure :
  forall input,
    outcome (decodeBase64 input) =
    Normal match forgivingBase64Decode (stripWhiteSpace input) with
           | Some decoded => decoded
           | None => input
           end
    /\ events (decodeBase64 input) =
       match forgivingBase64Decode (stripWhiteSpace input) with
       | Some _ => []
       | None => [ConsoleWarn [Str (lit "Failed to decode base64:");
                               Err decodeFailure]]
       end.
Proof.
  intros input. rewrite decodeBase64_run.
  destruct (forgivingBase64Decode (stripWhiteSpace input)); split; reflexivity.
Qed.

(* ================================================================== *)
(** ** sendNotification                                                *)
(* ================================================================== *)

(** A processor that its constructor returned has a non-empty server. *)
Lemma newEmailProcessor_inv (e : Env) (this : EmailProcessor) :
  outcome (newEmailProcessor e) = Normal this ->
  this = mkProcessor e /\
  exists server, NTFY_SERVER e = Some server /\ server <> [].
Proof.
  unfold newEmailProcessor, validateEnvironment. cbn [env].
  destruct e as [[server|]]; cbn [absent NTFY_SERVER].
  - destruct server as [|c t]; cbn [falsy]; [discriminate|].
    intros [= <-]. split; [reflexivity|]. exists (c :: t). split; congruence.
  - discriminate.
Qed.

Lemma sendNotification_run (host : Host) (this : EmailProcessor)
      (server topic payload subject to : jsstring) :
  NTFY_SERVER (env this) = Some server ->
  let url := notificationUrl server topic in
  let init := notificationRequest payload subject to in
  sendNotification host this topic payload subject to =
  match fetch host url init with
  | Throw err =>
      ([Fetch url init;
        ConsoleError [Str (lit "Failed to send ntfy notification:"); Err err]],
       Throw err)
  | Normal response =>
      (Fetch url init ::
         (if ok response then []
          else [ConsoleError
                  [Str (lit "ntfy request failed: " ++ showN (status response)
                        ++ lit " " ++ statusText response)]]),
       Normal tt)
  end.
Proof.
  intros Hs url init. unfold sendNotification. rewrite Hs.
  fold (notificationUrl server topic).
  fold (notificationRequest payload subject to).
  fold url. fold init.
  destruct (fetch host url init) as [response|err];
    unfold await, emit, bind, tryCatch.
  - now destruct (ok response).
  - reflexivity.
Qed.

(** C6.  On a processor that its constructor returned, [sendNotification]
    posts the request once.  When the request fails at the transport level
    the failure is logged and raised to the caller; when it is answered,
    whatever the status, nothing is raised, and a non-success status is
    logged.  So it raises exactly when the request itself fails. *)
Theorem sendNotification_raises_iff_transport_fails :
  forall host e this topic payload subject to,
    outcome (newEmailProcessor e) = Normal this ->
    exists server,
      NTFY_SERVER e = Some server /\
      let url := notificationUrl server topic in
      let init := notificationRequest payload subject to in
      let run := sendNotification host this topic payload subject to in
      (forall err,
          fetch host url init = Throw err ->
          run = ([Fetch url init;
                  ConsoleError [Str (lit "Failed to send ntfy notification:");
                                Err err]],
                 Throw err))
      /\ (forall response,
             fetch host url init = Normal response ->
             outcome run = Normal tt /\
             events run =
             Fetch url init ::
               (if ok response then []
                else [ConsoleError
                        [Str (lit "ntfy request failed: "
                              ++ showN (status response)
                              ++ lit " " ++ statusText response)]]))
      /\ ((exists err, outcome run = Throw err) <->
          (exists err, fetch host url init = Throw err)).
Proof.
  intros host e this topic payload subject to Hnew.
  apply newEmailProcessor_inv in Hnew as (-> & server & Hs & _).
  exists server. split; [exact Hs|]. intros url init run.
  assert (R := @sendNotification_run host (mkProcessor e) server topic payload
                 subject to Hs).
  cbn zeta in R. fold url init run in R.
  repeat split.
  - intros err E. rewrite R, E. reflexivity.
  - rewrite R, H. reflexivity.
  - rewrite R, H. reflexivity.
  - intros [err E]. rewrite R in E.
    destruct (fetch host url init) as [response|err']; [discriminate E|eauto].
  - intros [err E]. exists err. rewrite R, E. reflexivity.
Qed.

Lemma sendNotification_raises_iff_transport_fails_witness :
  outcome (newEmailProcessor exampleEnv) = Normal (mkProcessor exampleEnv)
  /\ exists err,
      outcome (sendNotification offlineHost (mkProcessor exampleEnv)
                 (lit "example-com") (lit "payload") (lit "subject")
                 (lit "to@example.com")) = Throw err.
Proof.
  assert (H : outcome (newEmailProcessor exampleEnv)
              = Normal (mkProcessor exampleEnv)) by reflexivity.
  split; [exact H|].
  destruct (@sendNotification_raises_iff_transport_fails offlineHost
              exampleEnv (mkProcessor exampleEnv)
              (lit "example-com") (lit "payload") (lit "subject")
              (lit "to@example.com") H) as (server & _ & _ & _ & Hiff).
  apply Hiff. exists transportError. reflexivity.
Defined.

(* ================================================================== *)
(** ** extractPlainText always returns                                 *)
(* ================================================================== *)

Arguments lit s : simpl never.

Lemma extractPartBody_normal (part : jsstring) :
  exists v, outcome (extractPartBody part) = Normal v.
Proof.
  unfold extractPartBody.
  destruct (indexOf part [CR; LF; CR; LF] =? -1)%Z; [now eexists|].
  match goal with |- context [falsy ?b] => destruct (falsy b) end;
    [now eexists|].
  match goal with |- context [str_eqb ?a ?b] => destruct (str_eqb a b) end;
    [now eexists|].
  match goal with |- context [str_eqb ?a ?b] => destruct (str_eqb a b) end;
    [|now eexists].
  rewrite outcome_bind.
  match goal with |- context [decodeBase64 ?b] =>
    destruct (decodeBase64_normal b) as [v ->] end.
  now eexists.
Qed.

Lemma scanParts_normal (parts : list jsstring) :
  exists v, outcome (scanParts parts) = Normal v.
Proof.
  induction parts as [|part rest IH]; [now eexists|].
  cbn [scanParts].
  destruct (negb (includes part (lit "Content-Type: text/plain"))); auto.
  rewrite outcome_bind.
  destruct (extractPartBody_normal part) as [[b|] ->]; auto.
  destruct (truthy b); auto. now eexists.
Qed.

Lemma extractPlainText_normal (rawText : jsstring) :
  exists body, outcome (extractPlainText rawText) = Normal body.
Proof.
  unfold extractPlainText.
  destruct (falsy rawText); [now eexists|].
  destruct (search re_boundary rawText) as [boundary|]; [|now eexists].
  rewrite outcome_bind.
  destruct (scanParts_normal (split rawText (lit "--" ++ boundary)))
    as [[b|] ->]; now eexists.
Qed.

(* ================================================================== *)
(** ** processEmail and the exported handler                           *)
(* ================================================================== *)

Lemma orElse_absent (v : option jsstring) (d : jsstring) :
  absent v = true -> orElse v d = d.
Proof.
  destruct v as [[|c t]|]; cbn [absent orElse falsy]; auto. discriminate.
Qed.

Lemma processEmail_run (host : Host) (this : EmailProcessor) (message : Message)
      (rawText server bodyText : jsstring) (log0 : list event) :
  raw message = Normal rawText ->
  NTFY_SERVER (env this) = Some server ->
  extractPlainText rawText = (log0, Normal bodyText) ->
  let to := orElse (msg_to message) [] in
  let from := orElse (headers_get message (lit "from"))
                (orElse (msg_from message) (lit "(unknown sender)")) in
  let subject := orElse (headers_get message (lit "subject"))
                   (lit "(no subject)") in
  let date := orElse (headers_get message (lit "date")) (isoNow host) in
  let payload :=
    buildMarkdownPayload
      (mkEmailData from to subject date
         (truncateText (cleanBodyText bodyText) 1000)) in
  let url := notificationUrl server (generateTopic to) in
  let init := notificationRequest payload subject to in
  processEmail host this message =
  match fetch host url init with
  | Throw err =>
      (log0 ++
       [Fetch url init;
        ConsoleError [Str (lit "Failed to send ntfy notification:"); Err err];
        ConsoleError [Str (lit "Email processing failed:"); Err err]],
       Throw err)
  | Normal response =>
      (log0 ++
       Fetch url init ::
         (if ok response then []
          else [ConsoleError
                  [Str (lit "ntfy request failed: " ++ showN (status response)
                        ++ lit " " ++ statusText response)]])
         ++ [ConsoleLog [Str (lit "Email notification sent for: " ++ subject)]],
       Normal tt)
  end.
Proof.
  intros Hraw Hs Hx to from subject date payload url init.
  unfold processEmail. rewrite Hraw.
  fold to from subject date. unfold await. cbn [bind].
  rewrite Hx. cbn [bind]. fold payload.
  rewrite (@sendNotification_run host this server (generateTopic to) payload
             subject to Hs).
  fold url init.
  destruct (fetch host url init) as [response|err]; cbn [bind tryCatch emit].
  - destruct (ok response); cbn [app]; rewrite <- ?app_assoc; reflexivity.
  - cbn [throw app]. rewrite <- ?app_assoc. reflexivity.
Qed.

(** C10.  For a processor that its constructor returned and a message whose
    raw text can be read, [processEmail] posts a request built from the
    metadata with these defaults: the sender is ["(unknown sender)"] when
    both the [from] header and [message.from] are absent, the subject is
    ["(no subject)"] when the [subject] header is absent, the date is the
    current time as an ISO timestamp when the [date] header is absent, and
    the recipient is the empty string when [message.to] is absent, the topic
    being then ["unknown"]. *)
Theorem processEmail_defaults :
  forall host e this message rawText,
    outcome (newEmailProcessor e) = Normal this ->
    raw message = Normal rawText ->
    exists server bodyText log0 rest from to subject date,
      NTFY_SERVER e = Some server
      /\ extractPlainText rawText = (log0, Normal bodyText)
      /\ events (processEmail host this message) =
         log0 ++
         Fetch (notificationUrl server (generateTopic to))
           (notificationRequest
              (buildMarkdownPayload
                 (mkEmailData from to subject date
                    (truncateText (cleanBodyText bodyText) 1000)))
              subject to)
         :: rest
      /\ (absent (headers_get message (lit "from")) = true ->
          absent (msg_from message) = true ->
          from = lit "(unknown sender)")
      /\ (absent (headers_get message (lit "subject")) = true ->
          subject = lit "(no subject)")
      /\ (absent (headers_get message (lit "date")) = true ->
          date = isoNow host)
      /\ (absent (msg_to message) = true ->
          to = [] /\ generateTopic to = lit "unknown").
Proof.
  intros host e this message rawText Hnew Hraw.
  apply newEmailProcessor_inv in Hnew as (-> & server & Hs & _).
  destruct (extractPlainText_normal rawText) as [bodyText Hb].
  assert (Hx : extractPlainText rawText
               = (events (extractPlainText rawText), Normal bodyText)).
  { rewrite <- Hb. apply M_eta. }
  pose proof (@processEmail_run host (mkProcessor e) message rawText server
                bodyText _ Hraw Hs Hx) as R.
  cbn zeta in R.
  assert (T : exists rest,
             events (processEmail host (mkProcessor e) message) =
             events (extractPlainText rawText) ++
             Fetch (notificationUrl server
                      (generateTopic (orElse (msg_to message) [])))
               (notificationRequest
                  (buildMarkdownPayload
                     (mkEmailData
                        (orElse (headers_get message (lit "from"))
                           (orElse (msg_from message) (lit "(unknown sender)")))
                        (orElse (msg_to message) [])
                        (orElse (headers_get message (lit "subject"))
                           (lit "(no subject)"))
                        (orElse (headers_get message (lit "date")) (isoNow host))
                        (truncateText (cleanBodyText bodyText) 1000)))
                  (orElse (headers_get message (lit "subject"))
                     (lit "(no subject)"))
                  (orElse (msg_to message) []))
             :: rest).
  { rewrite R.
    match goal with
    | |- context [fetch host ?u ?i] => destruct (fetch host u i)
    end; eexists; reflexivity. }
  destruct T as [rest T].
  exists server, bodyText, (events (extractPlainText rawText)), rest.
  do 4 eexists.
  split; [exact Hs|]. split; [exact Hx|]. split; [exact T|].
  repeat split; intros;
    rewrite ?orElse_absent by assumption; reflexivity.
Qed.

Lemma processEmail_defaults_witness :
  outcome (newEmailProcessor exampleEnv) = Normal (mkProcessor exampleEnv)
  /\ raw bareMessage = Normal (lit "Hello world!")
  /\ exists log0 body rest,
      events (processEmail onlineHost (mkProcessor exampleEnv) bareMessage) =
      log0 ++
      Fetch (lit "https://ntfy.example.com/unknown")
        (notificationRequest
           (buildMarkdownPayload
              (mkEmailData (lit "(unknown sender)") [] (lit "(no subject)")
                 (lit "2025-06-27T12:00:00.000Z") body))
           (lit "(no subject)") [])
      :: rest.
Proof.
  assert (H1 : outcome (newEmailProcessor exampleEnv)
               = Normal (mkProcessor exampleEnv)) by reflexivity.
  assert (H2 : raw bareMessage = Normal (lit "Hello world!")) by reflexivity.
  split; [exact H1|]. split; [exact H2|].
  destruct (@processEmail_defaults onlineHost exampleEnv
              (mkProcessor exampleEnv) bareMessage (lit "Hello world!") H1 H2)
    as (server & bodyText & log0 & rest & from & to & subject & date
        & Hs & _ & Hev & Hfrom & Hsubject & Hdate & Hto).
  injection Hs as <-.
  rewrite (Hfrom eq_refl eq_refl), (Hsubject eq_refl), (Hdate eq_refl) in Hev.
  destruct (Hto eq_refl) as [-> Htopic]. rewrite Htopic in Hev.
  exists log0, (truncateText (cleanBodyText bodyText) 1000), rest.
  exact Hev.
Defined.

Lemma email_run (host : Host) (message : Message) (e : Env) :
  email host message e =
  match outcome (handling host message e) with
  | Normal _ => (events (handling host message e), Normal tt)
  | Throw err => (events (handling host message e) ++ [handlerFailed err],
                  Normal tt)
  end.
Proof.
  unfold email. fold (handling host message e).
  destruct (handling host message e) as [l [[]|err]]; reflexivity.
Qed.

(** C5.  The exported [email] handler never raises, whatever the message,
    the environment and the host.  Whatever is raised while the email is
    handled is logged by the handler as its last event and not raised
    again; this holds in particular of the construction error when
    [NTFY_SERVER] is missing and of an outbound request rejected at the
    transport level. *)
Theorem email_never_raises :
  forall host message e,
    outcome (email host message e) = Normal tt
    /\ (forall err,
           outcome (handling host message e) = Throw err ->
           events (email host message e) =
           events (handling host message e) ++ [handlerFailed err])
    /\ (absent (NTFY_SERVER e) = true ->
        email host message e = ([handlerFailed configurationError], Normal tt))
    /\ (forall this rawText err,
           outcome (newEmailProcessor e) = Normal this ->
           raw message = Normal rawText ->
           (forall url init, fetch host url init = Throw err) ->
           exists log url init,
             email host message e =
             (log ++
              [Fetch url init;
               ConsoleError [Str (lit "Failed to send ntfy notification:");
                             Err err];
               ConsoleError [Str (lit "Email processing failed:"); Err err];
               handlerFailed err],
              Normal tt)).
Proof.
  intros host message e. pose proof (email_run host message e) as R.
  split; [|split; [|split]].
  - rewrite R. now destruct (outcome (handling host message e)).
  - intros err H. rewrite R, H. reflexivity.
  - intros H. unfold email, newEmailProcessor, validateEnvironment.
    cbn [env]. rewrite H. reflexivity.
  - intros this rawText err Hnew Hraw Hfetch.
    assert (Hh : handling host message e = processEmail host this message).
    { unfold handling. rewrite (M_eta (newEmailProcessor e)), Hnew.
      assert (Hev : events (newEmailProcessor e) = []).
      { unfold newEmailProcessor, validateEnvironment.
        now destruct (absent (NTFY_SERVER (env (mkProcessor e)))). }
      rewrite Hev. cbn [bind].
      now destruct (processEmail host this message). }
    apply newEmailProcessor_inv in Hnew as (-> & server & Hs & _).
    destruct (extractPlainText_normal rawText) as [bodyText Hb].
    assert (Hx : extractPlainText rawText
                 = (events (extractPlainText rawText), Normal bodyText)).
    { rewrite <- Hb. apply M_eta. }
    pose proof (@processEmail_run host (mkProcessor e) message rawText server
                  bodyText _ Hraw Hs Hx) as P.
    cbn zeta in P. rewrite Hfetch in P.
    rewrite R, Hh, P. cbn [outcome events fst snd].
    do 3 eexists. rewrite <- app_assoc. reflexivity.
Qed.

Lemma email_never_raises_witness :
  (absent (NTFY_SERVER (mkEnv None)) = true
   /\ email onlineHost bareMessage (mkEnv None)
      = ([handlerFailed configurationError], Normal tt))
  /\ (outcome (handling offlineHost bareMessage exampleEnv)
      = Throw transportError
      /\ events (email offlineHost bareMessage exampleEnv) =
         events (handling offlineHost bareMessage exampleEnv)
         ++ [handlerFailed transportError])
  /\ (outcome (newEmailProcessor exampleEnv) = Normal (mkProcessor exampleEnv)
      /\ raw bareMessage = Normal (lit "Hello world!")
      /\ (forall url init, fetch offlineHost url init = Throw transportError)
      /\ exists log url init,
          email offlineHost bareMessage exampleEnv =
          (log ++
           [Fetch url init;
            ConsoleError [Str (lit "Failed to send ntfy notification:");
                          Err transportError];
            ConsoleError [Str (lit "Email processing failed:");
                          Err transportError];
            handlerFailed transportError],
           Normal tt)).
Proof.
  split; [|split].
  - split; [reflexivity|].
    exact (proj1 (proj2 (proj2
             (email_never_raises onlineHost bareMessage (mkEnv None))))
             eq_refl).
  - assert (H : outcome (handling offlineHost bareMessage exampleEnv)
                = Throw transportError) by (vm_compute; reflexivity).
    split; [exact H|].
    exact (proj1 (proj2 (email_never_raises offlineHost bareMessage exampleEnv))
             transportError H).
  - assert (H1 : outcome (newEmailProcessor exampleEnv)
                 = Normal (mkProcessor exampleEnv)) by reflexivity.
    assert (H2 : raw bareMessage = Normal (lit "Hello world!"))
      by reflexivity.
    assert (H3 : forall url init,
               fetch offlineHost url init = Throw transportError)
      by reflexivity.
    repeat (split; [assumption|]).
    exact (proj2 (proj2 (proj2
             (email_never_raises offlineHost bareMessage exampleEnv)))
             (mkProcessor exampleEnv) (lit "Hello world!") transportError
             H1 H2 H3).
Defined.

(* ================================================================== *)
(** ** indexOf and slice                                               *)
(* ================================================================== *)

Lemma indexOf_lower (s p : jsstring) : (-1 <= indexOf s p)%Z.
Proof.
  induction s as [|c t IH]; cbn [indexOf].
  - destruct (startsWith [] p); lia.
  - destruct (startsWith (c :: t) p); [lia|].
    destruct (Z.ltb_spec (indexOf t p) 0); lia.
Qed.

(** [indexOf] is [-1] exactly when the text does not include the pattern. *)
Lemma indexOf_absent (s p : jsstring) :
  includes s p = false -> indexOf s p = (-1)%Z.
Proof.
  induction s as [|c t IH]; cbn [indexOf includes]; intros H;
    apply orb_false_elim in H as [H1 H2]; rewrite H1; auto.
  rewrite (IH H2). reflexivity.
Qed.

(** [indexOf] is the position of the first occurrence. *)
Lemma indexOf_first (pre p post : jsstring) :
  (forall k, (k < List.length pre)%nat ->
             startsWith (skipn k (pre ++ p ++ post)) p = false) ->
  indexOf (pre ++ p ++ post) p = Z.of_nat (List.length pre).
Proof.
  induction pre as [|c t IH]; intros H.
  - cbn [app List.length]. destruct (p ++ post) eqn:E; cbn [indexOf];
      rewrite <- E, startsWith_refl_app; reflexivity.
  - cbn [app indexOf].
    pose proof (H 0%nat ltac:(simpl; lia)) as H0. cbn [skipn app] in H0.
    rewrite H0. rewrite IH.
    + destruct (Z.ltb_spec (Z.of_nat (List.length t)) 0); [lia|].
      cbn [List.length]. lia.
    + intros k Hk. apply (H (S k)). simpl; lia.
Qed.

Lemma slice_to_end (pre post : jsstring) :
  slice (pre ++ post) (Z.of_nat (List.length pre)) None = post.
Proof.
  unfold slice, clampIndex. rewrite length_app, Nat2Z.inj_add.
  destruct (Z.ltb_spec (Z.of_nat (List.length pre)) 0); [lia|].
  rewrite Z.min_l by lia. rewrite Nat2Z.id.
  rewrite skipn_app, skipn_all, Nat.sub_diag. cbn [app skipn].
  apply firstn_all2. lia.
Qed.

(* ================================================================== *)
(** ** extractPlainText on a message without boundary                  *)
(* ================================================================== *)

Lemma extractSimpleEmail_body (headers body : jsstring) :
  (forall k, (k < List.length headers)%nat ->
             startsWith (skipn k (headers ++ BLANK_LINE ++ body)) BLANK_LINE
             = false) ->
  extractSimpleEmail (headers ++ BLANK_LINE ++ body) = trim body.
Proof.
  intros H. unfold extractSimpleEmail. fold BLANK_LINE.
  rewrite (indexOf_first headers BLANK_LINE body H).
  destruct (Z.eqb_spec (Z.of_nat (List.length headers)) (-1)); [lia|].
  cbn [negb]. f_equal.
  replace (Z.of_nat (List.length headers) + 4)%Z
    with (Z.of_nat (List.length (headers ++ BLANK_LINE)))
    by (rewrite length_app; cbn [List.length BLANK_LINE]; lia).
  rewrite app_assoc. apply slice_to_end.
Qed.

Lemma extractSimpleEmail_whole (raw : jsstring) :
  includes raw BLANK_LINE = false -> extractSimpleEmail raw = trim raw.
Proof.
  intros H. unfold extractSimpleEmail. fold BLANK_LINE.
  now rewrite (indexOf_absent _ _ H).
Qed.

Lemma extractPlainText_no_boundary (rawText : jsstring) :
  search re_boundary rawText = None ->
  extractPlainText rawText = ret (extractSimpleEmail rawText).
Proof.
  intros H. unfold extractPlainText. rewrite H.
  now destruct rawText.
Qed.

(** C8.  On a raw message in which the boundary expression finds nothing,
    [extractPlainText] returns, trimmed, what follows the first
    ["\r\n\r\n"], and the whole text, trimmed, when there is no
    ["\r\n\r\n"]; [extractPlainText("Header: v\r\n\r\nBody text")] is
    ["Body text"]. *)
Theorem extractPlainText_non_mime :
  (forall rawText,
      search re_boundary rawText = None ->
      (forall headers body,
          rawText = headers ++ BLANK_LINE ++ body ->
          (forall k, (k < List.length headers)%nat ->
                     startsWith (skipn k rawText) BLANK_LINE = false) ->
          extractPlainText rawText = ret (trim body))
      /\ (includes rawText BLANK_LINE = false ->
          extractPlainText rawText = ret (trim rawText)))
  /\ extractPlainText (lit "Header: v" ++ BLANK_LINE ++ lit "Body text")
     = ret (lit "Body text").
Proof.
  split; [|reflexivity].
  intros rawText Hb. rewrite (extractPlainText_no_boundary _ Hb). split.
  - intros headers body -> H. now rewrite extractSimpleEmail_body.
  - intros H. now rewrite extractSimpleEmail_whole.
Qed.

Lemma extractPlainText_non_mime_witness :
  (search re_boundary (lit "Subject: hi" ++ BLANK_LINE ++ lit " Body ") = None
   /\ extractPlainText (lit "Subject: hi" ++ BLANK_LINE ++ lit " Body ")
      = ret (lit "Body"))
  /\ (search re_boundary (lit " no headers ") = None
      /\ includes (lit " no headers ") BLANK_LINE = false
      /\ extractPlainText (lit " no headers ") = ret (lit "no headers")).
Proof.
  split.
  - assert (H : search re_boundary
                  (lit "Subject: hi" ++ BLANK_LINE ++ lit " Body ") = None)
      by reflexivity.
    split; [exact H|].
    refine (proj1 (proj1 extractPlainText_non_mime _ H)
              (lit "Subject: hi") (lit " Body ") eq_refl _).
    intros k Hk. cbn [List.length lit List.map list_ascii_of_string] in Hk.
    do 11 (destruct k as [|k]; [reflexivity|]). simpl in Hk. lia.
  - assert (H : search re_boundary (lit " no headers ") = None)
      by reflexivity.
    assert (H' : includes (lit " no headers ") BLANK_LINE = false)
      by reflexivity.
    split; [exact H|]. split; [exact H'|].
    exact (proj2 (proj1 extractPlainText_non_mime _ H) H').
Defined.

(* ================================================================== *)
(** ** extractPlainText on a multipart message                         *)
(* ================================================================== *)

Lemma extractPartBody_outcome (part : jsstring) :
  outcome (extractPartBody part) =
  Normal match partRegion part with
         | Some body => Some (decodeBody (partEncoding part) body)
         | None => None
         end.
Proof.
  unfold extractPartBody, partRegion, decodeBody. fold BLANK_LINE.
  fold (partEncoding part).
  destruct (indexOf part BLANK_LINE =? -1)%Z; [reflexivity|].
  match goal with |- context [falsy ?b] => destruct (falsy b) end;
    [reflexivity|].
  destruct (str_eqb (partEncoding part) (lit "quoted-printable"));
    [reflexivity|].
  destruct (str_eqb (partEncoding part) (lit "base64")); [|reflexivity].
  rewrite outcome_bind, decodeBase64_run.
  match goal with |- context [forgivingBase64Decode ?b] =>
    destruct (forgivingBase64Decode b) end; reflexivity.
Qed.

(** Parts without the literal play no role in the loop. *)
Lemma scanParts_filter (parts : list jsstring) :
  scanParts (filter (fun p => includes p TEXT_PLAIN) parts) = scanParts parts.
Proof.
  induction parts as [|part rest IH]; [reflexivity|].
  cbn [filter scanParts]. fold TEXT_PLAIN.
  destruct (includes part TEXT_PLAIN) eqn:E; cbn [negb]; [|exact IH].
  cbn [scanParts]. fold TEXT_PLAIN. rewrite E. cbn [negb].
  now rewrite IH.
Qed.

Lemma scanParts_first (before after : list jsstring) (part body : jsstring) :
  includes part TEXT_PLAIN = true ->
  yields part body ->
  (forall p, In p before -> includes p TEXT_PLAIN = true -> yieldsNothing p) ->
  outcome (scanParts (before ++ part :: after)) = Normal (Some body).
Proof.
  intros Hin [Hy Hne] Hbefore.
  induction before as [|p before IH]; cbn [app scanParts]; fold TEXT_PLAIN.
  - rewrite Hin. cbn [negb]. rewrite outcome_bind, Hy.
    destruct body; [congruence|reflexivity].
  - assert (IH' := IH (fun q Hq => Hbefore q (or_intror Hq))).
    destruct (includes p TEXT_PLAIN) eqn:E; cbn [negb]; [|exact IH'].
    rewrite outcome_bind.
    destruct (Hbefore p (or_introl eq_refl) E) as [-> | ->]; exact IH'.
Qed.

Lemma scanParts_none (parts : list jsstring) :
  (forall p, In p parts -> includes p TEXT_PLAIN = true -> yieldsNothing p) ->
  outcome (scanParts parts) = Normal None.
Proof.
  induction parts as [|p parts IH]; intros H; [reflexivity|].
  cbn [scanParts]. fold TEXT_PLAIN.
  assert (IH' := IH (fun q Hq => H q (or_intror Hq))).
  destruct (includes p TEXT_PLAIN) eqn:E; cbn [negb]; [|exact IH'].
  rewrite outcome_bind.
  destruct (H p (or_introl eq_refl) E) as [-> | ->]; exact IH'.
Qed.

Lemma extractPlainText_boundary (rawText boundary : jsstring) :
  search re_boundary rawText = Some boundary ->
  outcome (extractPlainText rawText) =
  match outcome (scanParts (split rawText (lit "--" ++ boundary))) with
  | Normal (Some body) => Normal body
  | Normal None => Normal (extractSimpleEmail rawText)
  | Throw err => Throw err
  end.
Proof.
  intros H. unfold extractPlainText. rewrite H.
  destruct rawText as [|c t]; [discriminate H|]. cbn [falsy].
  rewrite outcome_bind.
  now destruct (outcome (scanParts (split (c :: t) (lit "--" ++ boundary))))
    as [[b|]|err].
Qed.

(** C3, as stated, fails: no part of this message has the declaration in
    its header block, so every part would be skipped and the non-MIME
    extraction returned; the code tests the whole part, finds the words in
    the body of the HTML part and returns that body. *)
Lemma extractPlainText_looks_at_whole_part :
  search re_boundary htmlQuotingPlain = Some (lit "frontier")
  /\ (forall part,
         In part (split htmlQuotingPlain (lit "--" ++ lit "frontier")) ->
         includes (headerBlock part) TEXT_PLAIN = false)
  /\ outcome (extractPlainText htmlQuotingPlain)
     = Normal (lit "<p>Content-Type: text/plain</p>")
  /\ outcome (extractPlainText htmlQuotingPlain)
     <> Normal (extractSimpleEmail htmlQuotingPlain).
Proof.
  split; [reflexivity|]. split; [|split; [reflexivity|]].
  - intros part H. vm_compute in H.
    repeat destruct H as [H|H]; try (subst part; reflexivity). contradiction.
  - vm_compute. discriminate.
Qed.

(** C3, amended.  On a raw message in which the boundary expression finds a
    boundary, split on [--boundary]: parts that do not contain the words
    [Content-Type: text/plain] anywhere (header block or body) play no role;
    the result is the body that the first part containing them yields, the
    parts before it yielding nothing; when no such part yields a body the
    result is the non-MIME extraction of the whole text.  What a part yields
    is its body region decoded under the first [Content-Transfer-Encoding]
    token found in the part.  On the example, the quoted-printable plain
    part is decoded and the HTML part skipped. *)
Theorem extractPlainText_multipart :
  (forall rawText boundary,
      search re_boundary rawText = Some boundary ->
      let parts := split rawText (lit "--" ++ boundary) in
      outcome (extractPlainText rawText) =
      match outcome (scanParts
                       (filter (fun p => includes p TEXT_PLAIN) parts)) with
      | Normal (Some body) => Normal body
      | Normal None => Normal (extractSimpleEmail rawText)
      | Throw err => Throw err
      end
      /\ (forall before part after body,
             parts = before ++ part :: after ->
             includes part TEXT_PLAIN = true ->
             yields part body ->
             (forall p, In p before -> includes p TEXT_PLAIN = true ->
                        yieldsNothing p) ->
             outcome (extractPlainText rawText) = Normal body)
      /\ ((forall p, In p parts -> includes p TEXT_PLAIN = true ->
                     yieldsNothing p) ->
          outcome (extractPlainText rawText)
          = Normal (extractSimpleEmail rawText)))
  /\ (forall part,
         outcome (extractPartBody part) =
         Normal match partRegion part with
                | Some body => Some (decodeBody (partEncoding part) body)
                | None => None
                end)
  /\ outcome (extractPlainText alternativeExample)
     = Normal (lit "Hello, World!").
Proof.
  split; [|split; [exact extractPartBody_outcome | reflexivity]].
  intros rawText boundary Hb parts.
  rewrite (extractPlainText_boundary _ Hb). fold parts.
  split; [now rewrite scanParts_filter|]. split.
  - intros before part after body -> Hin Hy Hbefore.
    now rewrite (@scanParts_first before after part body Hin Hy Hbefore).
  - intros H. now rewrite (@scanParts_none parts H).
Qed.

Lemma extractPlainText_multipart_witness :
  (search re_boundary alternativeExample = Some (lit "sep")
   /\ yields (lit "" ++ CRLF ++ lit "Content-Type: text/plain" ++ CRLF
              ++ lit "Content-Transfer-Encoding: quoted-printable"
              ++ CRLF ++ CRLF ++ lit "Hello=2C=20World=21" ++ CRLF)
             (lit "Hello, World!")
   /\ outcome (extractPlainText alternativeExample)
      = Normal (lit "Hello, World!"))
  /\ (search re_boundary htmlOnly = Some (lit "sep")
      /\ outcome (extractPlainText htmlOnly)
         = Normal (extractSimpleEmail htmlOnly)).
Proof.
  split.
  - assert (Hb : search re_boundary alternativeExample = Some (lit "sep"))
      by reflexivity.
    assert (Hy : yields (lit "" ++ CRLF ++ lit "Content-Type: text/plain"
                         ++ CRLF
                         ++ lit "Content-Transfer-Encoding: quoted-printable"
                         ++ CRLF ++ CRLF ++ lit "Hello=2C=20World=21" ++ CRLF)
                        (lit "Hello, World!")).
    { split; [reflexivity|discriminate]. }
    split; [exact Hb|]. split; [exact Hy|].
    destruct (proj1 extractPlainText_multipart _ _ Hb) as (_ & Hfirst & _).
    refine (Hfirst
              [lit "Content-Type: multipart/alternative; boundary="
               ++ [34%N] ++ lit "sep" ++ [34%N] ++ CRLF ++ CRLF;
               CRLF ++ lit "Content-Type: text/html" ++ CRLF ++ CRLF
               ++ lit "<p>Hello</p>" ++ CRLF]
              _ [lit "--"] _ eq_refl eq_refl Hy _).
    intros p [<-|[<-|[]]] Hp; discriminate Hp.
  - assert (Hb : search re_boundary htmlOnly = Some (lit "sep"))
      by reflexivity.
    split; [exact Hb|].
    destruct (proj1 extractPlainText_multipart _ _ Hb) as (_ & _ & Hnone).
    apply Hnone.
    intros p Hp Hinc. vm_compute in Hp.
    repeat destruct Hp as [Hp|Hp]; try (subst p; discriminate Hinc).
    contradiction.
Defined.

(* ================================================================== *)
(** ** The primitives on known values                                  *)
(* ================================================================== *)

(** The test vectors of RFC 4648, section 10, and the value of the
    repository's test. *)
Example forgivingBase64Decode_rfc4648 :
  forgivingBase64Decode (lit "") = Some (lit "")
  /\ forgivingBase64Decode (lit "Zg==") = Some (lit "f")
  /\ forgivingBase64Decode (lit "Zm8=") = Some (lit "fo")
  /\ forgivingBase64Decode (lit "Zm9v") = Some (lit "foo")
  /\ forgivingBase64Decode (lit "Zm9vYg==") = Some (lit "foob")
  /\ forgivingBase64Decode (lit "Zm9vYmE=") = Some (lit "fooba")
  /\ forgivingBase64Decode (lit "Zm9vYmFy") = Some (lit "foobar")
  /\ forgivingBase64Decode (lit "VGVzdCBiYXNlNjQ=") = Some (lit "Test base64").
Proof. repeat split. Qed.

(** Unpadded input is accepted; a length of 1 modulo 4, padding in the
    wrong place and characters outside the alphabet are failures. *)
Example forgivingBase64Decode_forgiving :
  forgivingBase64Decode (lit "Zg") = Some (lit "f")
  /\ forgivingBase64Decode (lit " Z m 8 ") = Some (lit "fo")
  /\ forgivingBase64Decode (lit "Zm9vY") = None
  /\ forgivingBase64Decode (lit "Zm8=Zg==") = None
  /\ forgivingBase64Decode (lit "Zg=") = None
  /\ forgivingBase64Decode (lit "not base64!") = None.
Proof. repeat split. Qed.

Example decodeBase64_examples :
  decodeBase64 (lit "VGVzdCBi" ++ CRLF ++ lit "YXNlNjQ=")
  = ret (lit "Test base64")
  /\ outcome (decodeBase64 (lit "not base64!")) = Normal (lit "not base64!").
Proof. split; reflexivity. Qed.

(** The boundary expression: any case, with or without quotes, the value
    ending at a quote, a semicolon or a line break. *)
Example re_boundary_examples :
  search re_boundary (lit "Content-Type: multipart/mixed; BOUNDARY=abc; x=1")
  = Some (lit "abc")
  /\ search re_boundary (lit "boundary=" ++ [34%N] ++ lit "a b" ++ [34%N])
     = Some (lit "a b")
  /\ search re_boundary (lit "boundary=xyz" ++ CRLF ++ lit "more")
     = Some (lit "xyz")
  /\ search re_boundary (lit "boundary=;") = None
  /\ search re_boundary (lit "Subject: no boundaries here") = None.
Proof. repeat split. Qed.

Example truncateText_examples :
  truncateText (lit "short") 1000 = lit "short"
  /\ truncateText (lit "abcdef") 3 = lit "abc" ++ [LF; LF] ++ lit "*...truncated*".
Proof. split; reflexivity. Qed.

(** The end-to-end example of the specification: one request, to the topic
    of the recipient's domain, whose body contains the text of the
    message. *)
Example processEmail_end_to_end :
  let message :=
    mkMessage (Some (lit "user@example.com")) (Some (lit "sender@example.com"))
      (fun name =>
         if str_eqb name (lit "from") then Some (lit "sender@example.com")
         else if str_eqb name (lit "subject") then Some (lit "Test")
         else if str_eqb name (lit "date") then Some (lit "2025-06-27")
         else Some [])
      (Normal (lit "From: sender@example.com" ++ CRLF
               ++ lit "To: user@example.com" ++ CRLF
               ++ lit "Subject: Test" ++ CRLF
               ++ lit "Date: 2025-06-27" ++ CRLF ++ CRLF
               ++ lit "Hello world!")) in
  exists init,
    email onlineHost message exampleEnv =
    ([Fetch (lit "https://ntfy.example.com/example-com") init;
      ConsoleLog [Str (lit "Email notification sent for: Test")]],
     Normal tt)
    /\ includes (req_body init) (lit "Hello world!") = true.
Proof. eexists. split; reflexivity. Qed.

(* ================================================================== *)
(** ** truncateText                                                    *)
(* ================================================================== *)

(** A text no longer than the limit is returned as it is; a longer one is
    cut to the limit and followed by the marker. *)
Lemma truncateText_spec (text : jsstring) (maxLength : Z) :
  (0 <= maxLength)%Z ->
  ((Z.of_nat (List.length text) <= maxLength)%Z ->
   truncateText text maxLength = text)
  /\ ((maxLength < Z.of_nat (List.length text))%Z ->
      truncateText text maxLength =
      firstn (Z.to_nat maxLength) text ++ [LF; LF] ++ lit "*...truncated*").
Proof.
  intros Hn. unfold truncateText. split; intros H.
  - destruct (Z.leb_spec (Z.of_nat (List.length text)) maxLength); [|lia].
    now rewrite orb_true_r.
  - destruct (Z.leb_spec (Z.of_nat (List.length text)) maxLength); [lia|].
    destruct text as [|c t]; [simpl in H; lia|]. cbn [falsy orb].
    f_equal. unfold slice, clampIndex.
    destruct (Z.ltb_spec 0 0); [lia|]. destruct (Z.ltb_spec maxLength 0); [lia|].
    rewrite Z.min_l by lia. rewrite Z.min_l by lia.
    now rewrite Z.sub_0_r.
Qed.

(* ================================================================== *)
(** ** decodeBase64 after an encode                                    *)
(* ================================================================== *)

Local Ltac Zify.zify_post_hook ::= Z.to_euclidean_division_equations.

Lemma list_ind3 (P : list N -> Prop) :
  P [] -> (forall a, P [a]) -> (forall a b, P [a; b]) ->
  (forall a b c rest, P rest -> P (a :: b :: c :: rest)) ->
  forall l, P l.
Proof.
  intros H0 H1 H2 H3.
  fix IH 1.
  intros [|a [|b [|c rest]]];
    [exact H0 | apply H1 | apply H2 | apply H3; apply IH].
Qed.

Lemma b64Value_b64Char (v : N) : (v < 64)%N -> b64Value (b64Char v) = Some v.
Proof.
  intros Hv. unfold b64Char, b64Value.
  destruct (N.ltb_spec v 26).
  { replace ((65 <=? v + 65) && (v + 65 <=? 90))%N with true
      by (symmetry; apply andb_true_iff; split; apply N.leb_le; lia).
    f_equal; lia. }
  destruct (N.ltb_spec v 52).
  { replace ((65 <=? v + 71) && (v + 71 <=? 90))%N with false
      by (symmetry; apply andb_false_iff; right; apply N.leb_gt; lia).
    replace ((97 <=? v + 71) && (v + 71 <=? 122))%N with true
      by (symmetry; apply andb_true_iff; split; apply N.leb_le; lia).
    f_equal; lia. }
  destruct (N.ltb_spec v 62).
  { replace ((65 <=? v - 4) && (v - 4 <=? 90))%N with false
      by (symmetry; apply andb_false_iff; left; apply N.leb_gt; lia).
    replace ((97 <=? v - 4) && (v - 4 <=? 122))%N with false
      by (symmetry; apply andb_false_iff; left; apply N.leb_gt; lia).
    replace ((48 <=? v - 4) && (v - 4 <=? 57))%N with true
      by (symmetry; apply andb_true_iff; split; apply N.leb_le; lia).
    f_equal; lia. }
  destruct (N.eqb_spec v 62) as [->|]; [reflexivity|].
  assert (v = 63%N) as -> by lia. reflexivity.
Qed.

(** Every character of the alphabet is kept by both strippings of white
    space and is not the padding character. *)
Lemma b64Value_plain (c v : N) :
  b64Value c = Some v ->
  isWhiteSpace c = false /\ isAsciiWhitespace c = false /\ c <> EQUALS.
Proof.
  unfold b64Value. intros H.
  assert (R : (43 <= c <= 122)%N /\ c <> EQUALS).
  { destruct (N.leb_spec 65 c), (N.leb_spec c 90); cbn [andb] in H;
      try (split; unfold EQUALS; lia);
      destruct (N.leb_spec 97 c), (N.leb_spec c 122); cbn [andb] in H;
      try (split; unfold EQUALS; lia);
      destruct (N.leb_spec 48 c), (N.leb_spec c 57); cbn [andb] in H;
      try (split; unfold EQUALS; lia);
      destruct (N.eqb_spec c 43); try (split; unfold EQUALS; lia);
      destruct (N.eqb_spec c 47); try (split; unfold EQUALS; lia);
      discriminate H. }
  destruct R as [[R1 R2] R3]. repeat split; auto.
  - unfold isWhiteSpace.
    repeat match goal with
           | |- context [(?a <=? ?b)%N] => destruct (N.leb_spec a b); try lia
           | |- context [(?a =? ?b)%N] => destruct (N.eqb_spec a b); try lia
           end; reflexivity.
  - unfold isAsciiWhitespace.
    repeat match goal with
           | |- context [(?a =? ?b)%N] => destruct (N.eqb_spec a b); try lia
           end; reflexivity.
Qed.

Lemma encodeSextets_decode (bytes : list N) :
  Forall (fun b => (b < 256)%N) bytes ->
  Forall (fun v => (v < 64)%N) (encodeSextets bytes)
  /\ decodeSextets (encodeSextets bytes) = bytes.
Proof.
  induction bytes as [|a|a b|a b c rest IH] using list_ind3; intros H.
  - split; [constructor|reflexivity].
  - inversion_clear H as [|? ? Ha _]. cbn [encodeSextets decodeSextets].
    split; [repeat constructor; lia | f_equal; lia].
  - inversion_clear H as [|? ? Ha H']. inversion_clear H' as [|? ? Hb _].
    cbn [encodeSextets decodeSextets].
    split; [repeat constructor; lia | repeat f_equal; lia].
  - inversion_clear H as [|? ? Ha H']. inversion_clear H' as [|? ? Hb H''].
    inversion_clear H'' as [|? ? Hc Hrest].
    destruct (IH Hrest) as [IH1 IH2].
    cbn [encodeSextets]. split.
    + repeat (constructor; [lia|]). exact IH1.
    + cbn [decodeSextets]. rewrite IH2. repeat f_equal; lia.
Qed.

Lemma mod4_step (n : nat) : (S (S (S (S n))) mod 4 = n mod 4)%nat.
Proof.
  replace (S (S (S (S n)))) with (n + 1 * 4)%nat by lia.
  apply Nat.Div0.mod_add.
Qed.

Lemma encode_lengths (bytes : list N) :
  (List.length (encodeSextets bytes) mod 4 <> 1)%nat
  /\ (List.length (base64Encode bytes) mod 4 = 0)%nat
  /\ (encodePadding bytes = []
      \/ exists v sx, rev (encodeSextets bytes) = v :: sx
                      /\ (encodePadding bytes = [EQUALS]
                          \/ encodePadding bytes = [EQUALS; EQUALS])).
Proof.
  unfold base64Encode. rewrite length_app, length_map.
  induction bytes as [|a|a b|a b c rest IH] using list_ind3.
  - split; [discriminate|]. split; [reflexivity|]. now left.
  - cbn [encodeSextets encodePadding].
    split; [discriminate|]. split; [reflexivity|].
    right. cbn [rev app]. eauto.
  - cbn [encodeSextets encodePadding].
    split; [discriminate|]. split; [reflexivity|].
    right. cbn [rev app]. eauto.
  - destruct IH as (IH1 & IH2 & IH3).
    cbn [encodeSextets encodePadding List.length plus].
    rewrite !mod4_step. split; [exact IH1|]. split; [exact IH2|].
    destruct IH3 as [IH3 | (v & sx & Hr & IH3)]; [now left|].
    right. cbn [rev]. rewrite Hr. cbn [app]. eauto.
Qed.

Lemma sextets_map_b64Char (sx : list N) :
  Forall (fun v => (v < 64)%N) sx -> sextets (List.map b64Char sx) = Some sx.
Proof.
  induction 1 as [|v sx Hv _ IH]; [reflexivity|].
  cbn [List.map sextets]. now rewrite (@b64Value_b64Char _ Hv), IH.
Qed.

Lemma filter_all (p : N -> bool) (l : list N) :
  Forall (fun c => p c = true) l -> filter p l = l.
Proof.
  induction 1 as [|c l Hc _ IH]; [reflexivity|].
  cbn [filter]. now rewrite Hc, IH.
Qed.

Lemma base64Encode_plain (bytes : list N) :
  Forall (fun b => (b < 256)%N) bytes ->
  Forall (fun c => negb (isWhiteSpace c) = true) (base64Encode bytes)
  /\ Forall (fun c => negb (isAsciiWhitespace c) = true) (base64Encode bytes).
Proof.
  intros H. destruct (encodeSextets_decode H) as [Hsx _].
  assert (Hpad : Forall (fun c => c = EQUALS) (encodePadding bytes)).
  { clear. induction bytes as [|a|a b|a b c rest IH] using list_ind3;
      cbn [encodePadding]; auto. }
  unfold base64Encode. split; apply Forall_app; split.
  - rewrite Forall_map. eapply Forall_impl; [|exact Hsx].
    intros v Hv. cbv beta.
    now destruct (@b64Value_plain _ _ (@b64Value_b64Char _ Hv)) as (-> & _ & _).
  - eapply Forall_impl; [|exact Hpad]. now intros c ->.
  - rewrite Forall_map. eapply Forall_impl; [|exact Hsx].
    intros v Hv. cbv beta.
    now destruct (@b64Value_plain _ _ (@b64Value_b64Char _ Hv)) as (_ & -> & _).
  - eapply Forall_impl; [|exact Hpad]. now intros c ->.
Qed.

Lemma stripPadding_base64Encode (bytes : list N) :
  Forall (fun b => (b < 256)%N) bytes ->
  stripPadding (base64Encode bytes) = List.map b64Char (encodeSextets bytes).
Proof.
  intros H. destruct (encodeSextets_decode H) as [Hsx _].
  destruct (encode_lengths bytes) as (_ & Hlen & Hpad).
  unfold stripPadding. rewrite Hlen. cbn [Nat.eqb].
  unfold base64Encode in *.
  set (sx := encodeSextets bytes) in *.
  assert (Hlast : forall v r, rev sx = v :: r ->
                              (b64Char v =? EQUALS)%N = false).
  { intros v r Hr. apply N.eqb_neq.
    assert (Hv : (v < 64)%N).
    { rewrite Forall_forall in Hsx. apply Hsx, in_rev. rewrite Hr. now left. }
    now destruct (@b64Value_plain _ _ (@b64Value_b64Char _ Hv)) as (_ & _ & ?). }
  destruct Hpad as [-> | (v & r & Hr & [-> | ->])].
  - rewrite app_nil_r, <- map_rev.
    destruct (rev sx) as [|v [|v' r]] eqn:Hr; cbn [List.map]; auto.
    change 61%N with EQUALS. now rewrite (Hlast _ _ eq_refl).
  - rewrite rev_app_distr, <- map_rev, Hr. cbn [rev app List.map].
    change 61%N with EQUALS. rewrite N.eqb_refl, (Hlast _ _ Hr).
    change (rev (List.map b64Char r) ++ [b64Char v])
      with (rev (List.map b64Char (v :: r))).
    now rewrite <- Hr, map_rev, rev_involutive.
  - rewrite rev_app_distr, <- map_rev, Hr. cbn [rev app List.map].
    change 61%N with EQUALS. rewrite N.eqb_refl.
    change (rev (List.map b64Char r) ++ [b64Char v])
      with (rev (List.map b64Char (v :: r))).
    now rewrite <- Hr, map_rev, rev_involutive.
Qed.

(** X15.  The round trip: [decodeBase64] gives back a string of byte
    values from its base64 encode, and logs nothing. *)
Lemma decodeBase64_roundtrip (bytes : list N) :
  Forall (fun b => (b < 256)%N) bytes ->
  decodeBase64 (base64Encode bytes) = ret bytes.
Proof.
  intros H. rewrite decodeBase64_run.
  destruct (base64Encode_plain H) as [Hws Haws].
  unfold stripWhiteSpace. rewrite (filter_all _ Hws).
  unfold forgivingBase64Decode. rewrite (filter_all _ Haws).
  rewrite (stripPadding_base64Encode H), length_map.
  destruct (encode_lengths bytes) as (Hlen & _ & _).
  destruct (Nat.eqb_spec (List.length (encodeSextets bytes) mod 4) 1);
    [contradiction|].
  destruct (encodeSextets_decode H) as [Hsx Hdec].
  now rewrite (sextets_map_b64Char Hsx), Hdec.
Qed.

(* ================================================================== *)
(** ** trim                                                            *)
(* ================================================================== *)

Lemma trimStart_idem (s : jsstring) : trimStart (trimStart s) = trimStart s.
Proof.
  induction s as [|c t IH]; [reflexivity|]. cbn [trimStart].
  destruct (isWhiteSpace c) eqn:E; [exact IH|]. cbn [trimStart]. now rewrite E.
Qed.

Lemma trimStart_head (s t : jsstring) (c : N) :
  trimStart s = c :: t -> isWhiteSpace c = false.
Proof.
  induction s as [|x r IH]; cbn [trimStart]; [discriminate|].
  destruct (isWhiteSpace x) eqn:E; [exact IH|]. now intros [= <- _].
Qed.

Lemma trimEnd_snoc (s : jsstring) (c : N) :
  trimEnd (s ++ [c]) = if isWhiteSpace c then trimEnd s else s ++ [c].
Proof.
  unfold trimEnd. rewrite rev_app_distr. cbn [rev app trimStart].
  destruct (isWhiteSpace c); [reflexivity|].
  cbn [rev]. now rewrite rev_involutive.
Qed.

(** Trimming the end of a concatenation: the right part decides. *)
Lemma trimEnd_app (x y : jsstring) :
  trimEnd (x ++ y) =
  match trimEnd y with
  | [] => trimEnd x
  | _ :: _ => x ++ trimEnd y
  end.
Proof.
  induction y as [|c y IH] using rev_ind.
  - now rewrite app_nil_r.
  - rewrite app_assoc, !trimEnd_snoc.
    destruct (isWhiteSpace c); [exact IH|].
    rewrite <- app_assoc. now destruct y.
Qed.

(** What [trimEnd] removes is a suffix. *)
Lemma trimEnd_prefix (s : jsstring) : exists w, s = trimEnd s ++ w.
Proof.
  induction s as [|c s IH] using rev_ind.
  - now exists [].
  - rewrite trimEnd_snoc. destruct (isWhiteSpace c).
    + destruct IH as [w Hw]. exists (w ++ [c]).
      now rewrite app_assoc, <- Hw.
    + exists []. now rewrite app_nil_r.
Qed.

Lemma trimEnd_idem (s : jsstring) : trimEnd (trimEnd s) = trimEnd s.
Proof.
  unfold trimEnd. now rewrite rev_involutive, trimStart_idem.
Qed.

(** The end of a trimmed text is not white space. *)
Lemma trimEnd_last (s init : jsstring) (c : N) :
  trimEnd s = init ++ [c] -> isWhiteSpace c = false.
Proof.
  unfold trimEnd. intros H.
  apply (f_equal (@rev N)) in H.
  rewrite rev_involutive, rev_app_distr in H. cbn [rev app] in H.
  exact (trimStart_head _ H).
Qed.

Lemma trimStart_trimEnd (s : jsstring) :
  trimStart (trimEnd (trimStart s)) = trimEnd (trimStart s).
Proof.
  destruct (trimEnd (trimStart s)) as [|c t] eqn:E; [reflexivity|].
  destruct (trimEnd_prefix (trimStart s)) as [w Hw]. rewrite E in Hw.
  cbn [app] in Hw. apply trimStart_head in Hw.
  cbn [trimStart]. now rewrite Hw.
Qed.

Lemma trim_idem (s : jsstring) : trim (trim s) = trim s.
Proof.
  unfold trim. now rewrite trimStart_trimEnd, trimEnd_idem.
Qed.

Lemma trim_head (s t : jsstring) (c : N) :
  trim s = c :: t -> isWhiteSpace c = false.
Proof.
  intros H. pose proof (trimStart_trimEnd s) as E. fold (trim s) in E.
  rewrite H in E. exact (trimStart_head _ E).
Qed.

Lemma trim_last (s init : jsstring) (c : N) :
  trim s = init ++ [c] -> isWhiteSpace c = false.
Proof. unfold trim. apply trimEnd_last. Qed.

(* ================================================================== *)
(** ** Texts with single spaces                                        *)
(* ================================================================== *)

Lemma singleSpaced_tail (c : N) (t : jsstring) :
  singleSpaced (c :: t) = true -> singleSpaced t = true.
Proof. cbn [singleSpaced]. intros H. now apply andb_true_iff in H. Qed.

Lemma singleSpaced_trimStart (s : jsstring) :
  singleSpaced s = true -> singleSpaced (trimStart s) = true.
Proof.
  induction s as [|c t IH]; [reflexivity|]. intros H. cbn [trimStart].
  destruct (isWhiteSpace c); [|exact H].
  apply IH. exact (singleSpaced_tail _ _ H).
Qed.

Lemma singleSpaced_prefix (x y : jsstring) :
  singleSpaced (x ++ y) = true -> singleSpaced x = true.
Proof.
  induction x as [|c t IH]; [reflexivity|]. cbn [app singleSpaced].
  intros H. apply andb_true_iff in H as [H1 H2].
  rewrite (IH H2), andb_true_r.
  destruct (isWhiteSpace c); [|reflexivity].
  apply andb_true_iff in H1 as [-> H1]. now destruct t.
Qed.

Lemma singleSpaced_trimEnd (s : jsstring) :
  singleSpaced s = true -> singleSpaced (trimEnd s) = true.
Proof.
  intros H. destruct (trimEnd_prefix s) as [w Hw]. rewrite Hw in H.
  exact (singleSpaced_prefix _ _ H).
Qed.

Lemma singleSpaced_trim (s : jsstring) :
  singleSpaced s = true -> singleSpaced (trim s) = true.
Proof.
  intros H. unfold trim. now apply singleSpaced_trimEnd, singleSpaced_trimStart.
Qed.

Lemma collapseRuns_eq (c : N) (t : jsstring) :
  collapseRuns (c :: t) =
  if isWhiteSpace c then
    match t with
    | c' :: _ => if isWhiteSpace c' then collapseRuns t else SP :: collapseRuns t
    | [] => [SP]
    end
  else c :: collapseRuns t.
Proof. reflexivity. Qed.

Lemma collapseRuns_singleSpaced (s : jsstring) :
  singleSpaced (collapseRuns s) = true.
Proof.
  induction s as [|c t IH]; [reflexivity|]. rewrite collapseRuns_eq.
  destruct (isWhiteSpace c) eqn:Hc.
  - destruct t as [|c' t']; [reflexivity|].
    destruct (isWhiteSpace c') eqn:Hc'; [exact IH|].
    rewrite collapseRuns_eq, Hc' in IH |- *.
    change (singleSpaced (SP :: c' :: collapseRuns t'))
      with ((if isWhiteSpace SP
             then (SP =? SP)%N && negb (isWhiteSpace c') else true)
            && singleSpaced (c' :: collapseRuns t')).
    rewrite IH, Hc'. reflexivity.
  - change (singleSpaced (c :: collapseRuns t))
      with ((if isWhiteSpace c
             then (c =? SP)%N && match collapseRuns t with
                                 | c' :: _ => negb (isWhiteSpace c')
                                 | [] => true
                                 end
             else true)
            && singleSpaced (collapseRuns t)).
    now rewrite Hc, IH.
Qed.

(** A text with single spaces is left as it is by the collapse and has no
    line break to replace. *)
Lemma singleSpaced_collapseRuns (s : jsstring) :
  singleSpaced s = true -> collapseRuns s = s.
Proof.
  induction s as [|c t IH]; [reflexivity|]. intros H.
  pose proof (IH (singleSpaced_tail _ _ H)) as IH'.
  rewrite collapseRuns_eq. cbn [singleSpaced] in H.
  apply andb_true_iff in H as [H _].
  destruct (isWhiteSpace c); [|now rewrite IH'].
  apply andb_true_iff in H as [Hsp Hnext]. apply N.eqb_eq in Hsp. subst c.
  destruct t as [|c' t']; [reflexivity|].
  apply negb_true_iff in Hnext. rewrite Hnext. now rewrite IH'.
Qed.

Lemma singleSpaced_only_spaces (s : jsstring) (c : N) :
  singleSpaced s = true -> In c s -> isWhiteSpace c = true -> c = SP.
Proof.
  induction s as [|x t IH]; [intros _ []|].
  intros H [->|Hin] Hc; [|exact (IH (singleSpaced_tail _ _ H) Hin Hc)].
  cbn [singleSpaced] in H. rewrite Hc in H.
  apply andb_true_iff in H as [H _]. apply andb_true_iff in H as [H _].
  now apply N.eqb_eq.
Qed.

Lemma singleSpaced_breaksToSpaces (s : jsstring) :
  singleSpaced s = true -> breaksToSpaces s = s.
Proof.
  intros H. unfold breaksToSpaces.
  rewrite <- (map_id s) at 2. apply map_ext_in. intros c Hin.
  destruct (N.eqb_spec c CR) as [->|_].
  - now pose proof (@singleSpaced_only_spaces s CR H Hin eq_refl).
  - destruct (N.eqb_spec c LF) as [->|_]; [|reflexivity].
    now pose proof (@singleSpaced_only_spaces s LF H Hin eq_refl).
Qed.

Lemma sanitizeHeader_passes (value : jsstring) :
  sanitizeHeader value = trim (collapseRuns (breaksToSpaces value)).
Proof.
  unfold sanitizeHeader. destruct value as [|c t]; [reflexivity|].
  cbn [falsy].
  now rewrite replace_crlf_breaksToSpaces, replace_ws_run_collapseRuns.
Qed.

Lemma sanitizeHeader_singleSpaced (value : jsstring) :
  singleSpaced (sanitizeHeader value) = true.
Proof.
  rewrite sanitizeHeader_passes. apply singleSpaced_trim, collapseRuns_singleSpaced.
Qed.

Lemma sanitizeHeader_no_breaks (value : jsstring) (c : N) :
  In c (sanitizeHeader value) -> c <> CR /\ c <> LF.
Proof.
  intros Hin.
  split; intros ->;
    now pose proof (@singleSpaced_only_spaces _ _
                      (sanitizeHeader_singleSpaced value) Hin eq_refl).
Qed.

Lemma sanitizeHeader_fixed (value : jsstring) :
  singleSpaced value = true -> trim value = value ->
  sanitizeHeader value = value.
Proof.
  intros H1 H2. rewrite sanitizeHeader_passes.
  now rewrite (@singleSpaced_breaksToSpaces _ H1), (@singleSpaced_collapseRuns _ H1).
Qed.

(** X1.  The result of [sanitizeHeader] is in normal form: its only white
    space is single spaces between other characters, and it neither starts
    nor ends with white space. *)
Theorem sanitizeHeader_normal_form :
  forall value,
    singleSpaced (sanitizeHeader value) = true
    /\ trim (sanitizeHeader value) = sanitizeHeader value
    /\ (forall c rest, sanitizeHeader value = c :: rest ->
                       isWhiteSpace c = false)
    /\ (forall init c, sanitizeHeader value = init ++ [c] ->
                       isWhiteSpace c = false).
Proof.
  intros value. split; [apply sanitizeHeader_singleSpaced|].
  rewrite sanitizeHeader_passes. split; [apply trim_idem|]. split.
  - intros c rest H. exact (@trim_head _ _ _ H).
  - intros init c H. exact (@trim_last _ _ _ H).
Qed.

(** X2.  [sanitizeHeader] is idempotent, and the values it leaves unchanged
    are exactly those in normal form. *)
Theorem sanitizeHeader_idempotent :
  (forall value, sanitizeHeader (sanitizeHeader value) = sanitizeHeader value)
  /\ (forall value,
         sanitizeHeader value = value <->
         singleSpaced value = true /\ trim value = value).
Proof.
  assert (I : forall value,
             sanitizeHeader (sanitizeHeader value) = sanitizeHeader value).
  { intros value. apply sanitizeHeader_fixed.
    - apply sanitizeHeader_singleSpaced.
    - rewrite sanitizeHeader_passes. apply trim_idem. }
  split; [exact I|]. intros value. split.
  - intros H. rewrite <- H. split; [apply sanitizeHeader_singleSpaced|].
    rewrite sanitizeHeader_passes. apply trim_idem.
  - intros [H1 H2]. now apply sanitizeHeader_fixed.
Qed.

Lemma sanitizeHeader_normal_form_witness :
  sanitizeHeader (lit "  a" ++ [CR; LF] ++ lit "b ") = lit "a" ++ lit " b"
  /\ isWhiteSpace 97 = false
  /\ sanitizeHeader (lit "  a" ++ [CR; LF] ++ lit "b ") = lit "a " ++ lit "b"
  /\ isWhiteSpace 98 = false.
Proof.
  assert (H1 : sanitizeHeader (lit "  a" ++ [CR; LF] ++ lit "b ")
               = lit "a" ++ lit " b") by reflexivity.
  assert (H2 : sanitizeHeader (lit "  a" ++ [CR; LF] ++ lit "b ")
               = lit "a " ++ lit "b") by reflexivity.
  destruct (sanitizeHeader_normal_form (lit "  a" ++ [CR; LF] ++ lit "b "))
    as (_ & _ & Hhead & Hlast).
  split; [exact H1|]. split; [exact (Hhead 97%N (lit " b") H1)|].
  split; [exact H2|]. exact (Hlast (lit "a ") 98%N H2).
Defined.

Lemma sanitizeHeader_idempotent_witness :
  (singleSpaced (lit "Re: hello world") = true
   /\ trim (lit "Re: hello world") = lit "Re: hello world")
  /\ sanitizeHeader (lit "Re: hello world") = lit "Re: hello world".
Proof.
  assert (H : singleSpaced (lit "Re: hello world") = true
              /\ trim (lit "Re: hello world") = lit "Re: hello world")
    by (split; reflexivity).
  split; [exact H|].
  exact (proj2 (proj2 sanitizeHeader_idempotent (lit "Re: hello world")) H).
Defined.

(* ================================================================== *)
(** ** cleanBodyText, as the code behaves                              *)
(* ================================================================== *)

Lemma cleanBodyText_run (text : jsstring) :
  cleanBodyText text =
  let t := trim (collapseRuns text) in
  if startsWith t (lit ">") then [] else t.
Proof.
  unfold cleanBodyText. destruct text as [|c0 r]; [reflexivity|].
  cbn [falsy]. rewrite replace_ws_run_collapseRuns.
  set (t := trim (collapseRuns (c0 :: r))). cbv zeta.
  assert (Ht : ~ In LF t).
  { intros H. apply trim_incl, collapseRuns_only_spaces in H;
      [discriminate H | reflexivity]. }
  rewrite (split_no_separator LF t Ht). cbn [filter].
  assert (E : trim t = t) by apply trim_idem. rewrite E.
  destruct (startsWith t (lit ">")); cbn [negb join]; [reflexivity|exact E].
Qed.

(** X3.  [cleanBodyText] returns the text with its white-space runs
    (line feeds included) collapsed to single spaces and trimmed, on one
    line; when that line starts with [>] the result is empty.  It is
    idempotent. *)
Theorem cleanBodyText_behaviour :
  (forall text,
      cleanBodyText text =
      let line := trim (collapseRuns text) in
      if startsWith line (lit ">") then [] else line)
  /\ (forall text,
         singleSpaced (cleanBodyText text) = true
         /\ trim (cleanBodyText text) = cleanBodyText text)
  /\ (forall text, cleanBodyText (cleanBodyText text) = cleanBodyText text).
Proof.
  assert (N : forall text,
             singleSpaced (cleanBodyText text) = true
             /\ trim (cleanBodyText text) = cleanBodyText text).
  { intros text. rewrite cleanBodyText_run. cbv zeta.
    destruct (startsWith (trim (collapseRuns text)) (lit ">"));
      [split; reflexivity|].
    split; [apply singleSpaced_trim, collapseRuns_singleSpaced | apply trim_idem]. }
  split; [exact cleanBodyText_run|]. split; [exact N|].
  intros text. destruct (N text) as [N1 N2].
  rewrite (cleanBodyText_run (cleanBodyText text)). cbv zeta.
  rewrite (@singleSpaced_collapseRuns _ N1), N2.
  rewrite cleanBodyText_run at 1. cbv zeta.
  destruct (startsWith (trim (collapseRuns text)) (lit ">")) eqn:E;
    [reflexivity|].
  rewrite cleanBodyText_run. cbv zeta. now rewrite E.
Qed.

(* ================================================================== *)
(** ** truncateText: the cut and its bound                             *)
(* ================================================================== *)

(** X4.  For a limit that is not negative, [truncateText] returns a text no
    longer than the limit as it is, and cuts a longer one to its first
    [maxLength] code units followed by the marker; the result is never
    longer than the limit plus the sixteen code units of the marker. *)
Theorem truncateText_cut :
  forall text maxLength,
    (0 <= maxLength)%Z ->
    ((Z.of_nat (List.length text) <= maxLength)%Z ->
     truncateText text maxLength = text)
    /\ ((maxLength < Z.of_nat (List.length text))%Z ->
        truncateText text maxLength =
        firstn (Z.to_nat maxLength) text ++ truncationMarker)
    /\ (Z.of_nat (List.length (truncateText text maxLength))
        <= maxLength + 16)%Z.
Proof.
  intros text maxLength Hn.
  destruct (truncateText_spec text Hn) as [Hshort Hlong].
  split; [exact Hshort|]. split; [exact Hlong|].
  destruct (Z.le_gt_cases (Z.of_nat (List.length text)) maxLength) as [H|H].
  - rewrite (Hshort H). lia.
  - rewrite (Hlong H), length_app, length_firstn.
    change (List.length ([LF; LF] ++ lit "*...truncated*")) with 16%nat. lia.
Qed.

Lemma truncateText_cut_witness :
  (0 <= 3)%Z
  /\ truncateText (lit "abcdef") 3 = lit "abc" ++ truncationMarker
  /\ truncateText (lit "abc") 3 = lit "abc".
Proof.
  assert (H : (0 <= 3)%Z) by lia.
  destruct (truncateText_cut (lit "abcdef") H) as (_ & Hlong & _).
  destruct (truncateText_cut (lit "abc") H) as (Hshort & _ & _).
  split; [exact H|]. split.
  - apply Hlong. reflexivity.
  - apply Hshort. vm_compute. discriminate.
Defined.

(* ================================================================== *)
(** ** buildMarkdownPayload: the shape of the payload                  *)
(* ================================================================== *)

Lemma trimEnd_three_dashes (x : jsstring) :
  trimEnd (x ++ lit "---" ++ [LF; LF]) = x ++ lit "---".
Proof.
  rewrite trimEnd_app. change (trimEnd (lit "---" ++ [LF; LF])) with (lit "---").
  reflexivity.
Qed.

Lemma buildMarkdownPayload_run (d : EmailData) :
  buildMarkdownPayload d =
  payloadHead d ++ lit "---" ++
  match trimEnd (ed_body d) with
  | [] => []
  | c :: body => [LF; LF] ++ c :: body
  end.
Proof.
  unfold buildMarkdownPayload, trim.
  change (trimStart ([LF] ++ lit "**Date:** " ++ ?x))
    with (lit "**Date:** " ++ x).
  set (body := ed_body d).
  replace (lit "**Date:** " ++ sanitizeHeader (ed_date d) ++ [LF; LF]
           ++ lit "**From:** " ++ sanitizeHeader (ed_from d) ++ lit "  " ++ [LF]
           ++ lit "**To:** " ++ sanitizeHeader (ed_to d) ++ lit "  " ++ [LF]
           ++ lit "**Subject:** " ++ sanitizeHeader (ed_subject d) ++ lit "  "
           ++ [LF; LF] ++ lit "---" ++ [LF; LF] ++ body ++ [LF])
    with ((payloadHead d ++ lit "---" ++ [LF; LF]) ++ (body ++ [LF]))
    by (unfold payloadHead; now rewrite <- !app_assoc).
  rewrite trimEnd_app, trimEnd_snoc.
  change (isWhiteSpace LF) with true. cbv iota.
  destruct (trimEnd body) as [|c b].
  - now rewrite trimEnd_three_dashes.
  - now rewrite <- !app_assoc.
Qed.

Lemma count_occ_app_N (x y : jsstring) (c : N) :
  count_occ N.eq_dec (x ++ y) c = (count_occ N.eq_dec x c + count_occ N.eq_dec y c)%nat.
Proof. apply count_occ_app. Qed.

Lemma sanitizeHeader_count_LF (value : jsstring) :
  count_occ N.eq_dec (sanitizeHeader value) LF = 0%nat.
Proof.
  apply count_occ_not_In. intros H.
  now destruct (@sanitizeHeader_no_breaks value LF H) as [_ H'].
Qed.

(** X5.  The payload starts with the four sanitized header fields in fixed
    order, then the rule, then (after an empty line) the body with its final
    white space removed; a body of white space leaves the rule as the end of
    the payload.  Whatever the fields hold, the lines above the rule contain
    exactly six line feeds: a field cannot add a line. *)
Theorem buildMarkdownPayload_shape :
  forall d,
    buildMarkdownPayload d =
    payloadHead d ++ lit "---" ++
    match trimEnd (ed_body d) with
    | [] => []
    | c :: body => [LF; LF] ++ c :: body
    end
    /\ count_occ N.eq_dec (payloadHead d) LF = 6%nat.
Proof.
  intros d. split; [apply buildMarkdownPayload_run|].
  unfold payloadHead.
  repeat rewrite count_occ_app_N. rewrite !sanitizeHeader_count_LF.
  reflexivity.
Qed.

(* ================================================================== *)
(** ** decodeQuotedPrintable: size and content of the result           *)
(* ================================================================== *)

Lemma decodeQuotedPrintable_passes (input : jsstring) :
  decodeQuotedPrintable input = decodeEscapes (removeSoftBreaks input).
Proof.
  unfold decodeQuotedPrintable. destruct input as [|c t]; [reflexivity|].
  cbn [falsy].
  now rewrite replace_soft_break_removeSoftBreaks,
    replace_hex_escape_decodeEscapes.
Qed.

Lemma length_ind (P : jsstring -> Prop) :
  (forall s, (forall r, (List.length r < List.length s)%nat -> P r) -> P s) ->
  forall s, P s.
Proof.
  intros H s. remember (List.length s) as n eqn:Hn. revert s Hn.
  induction n as [n IH] using lt_wf_ind. intros s ->.
  apply H. intros r Hr. exact (IH _ Hr r eq_refl).
Qed.

Lemma removeSoftBreaks_sub (s : jsstring) :
  (List.length (removeSoftBreaks s) <= List.length s)%nat
  /\ (forall c, In c (removeSoftBreaks s) -> In c s).
Proof.
  induction s as [s IH] using length_ind.
  destruct s as [|c0 r]; [split; [reflexivity | tauto]|].
  rewrite removeSoftBreaks_eq.
  destruct r as [|c1 r1]; [split; [reflexivity | tauto]|].
  assert (K : (List.length (c0 :: removeSoftBreaks (c1 :: r1))
               <= List.length (c0 :: c1 :: r1))%nat
              /\ (forall c, In c (c0 :: removeSoftBreaks (c1 :: r1)) ->
                            In c (c0 :: c1 :: r1))).
  { destruct (IH (c1 :: r1)) as [L I]; [simpl; lia|]. split.
    - cbn [List.length] in *. lia.
    - intros c [->|Hc]; [now left | right; now apply I]. }
  destruct ((c0 =? EQUALS)%N && (c1 =? LF)%N).
  - destruct (IH r1) as [L I]; [simpl; lia|]. split.
    + cbn [List.length]. lia.
    + intros c Hc. right. right. now apply I.
  - destruct r1 as [|c2 r2]; [exact K|].
    destruct ((c0 =? EQUALS)%N && (c1 =? CR)%N && (c2 =? LF)%N); [|exact K].
    destruct (IH r2) as [L I]; [simpl; lia|]. split.
    + cbn [List.length]. lia.
    + intros c Hc. right. right. right. now apply I.
Qed.

Lemma hexPair_byte (h1 h2 v : N) : hexPair h1 h2 = Some v -> (v < 256)%N.
Proof.
  unfold hexPair.
  destruct (hexValue h1) as [a|] eqn:E1; [|discriminate].
  destruct (hexValue h2) as [b|] eqn:E2; [|discriminate].
  intros H. assert (Hv : v = (16 * a + b)%N) by congruence.
  apply hexValue_lt in E1. apply hexValue_lt in E2. lia.
Qed.

Lemma escapeAt_byte (s : jsstring) (v : N) :
  escapeAt s = Some v -> (v < 256)%N.
Proof.
  destruct s as [|c0 [|h1 [|h2 r]]]; try discriminate.
  cbn [escapeAt]. destruct (c0 =? EQUALS)%N; [|discriminate].
  apply hexPair_byte.
Qed.

Lemma decodeEscapes_sub (s : jsstring) :
  (List.length (decodeEscapes s) <= List.length s)%nat
  /\ (forall c, In c (decodeEscapes s) -> In c s \/ (c < 256)%N).
Proof.
  induction s as [s IH] using length_ind.
  destruct s as [|c0 r]; [split; [reflexivity | tauto]|].
  rewrite decodeEscapes_eq.
  destruct (escapeAt (c0 :: r)) as [v|] eqn:E.
  - assert (Hr : (List.length (skipn 2 r) <= List.length r)%nat)
      by (rewrite length_skipn; lia).
    destruct (IH (skipn 2 r)) as [L I]; [cbn [List.length]; lia|]. split.
    + cbn [List.length]. lia.
    + intros c [<-|Hc]; [right; exact (escapeAt_byte _ E)|].
      destruct (I c Hc) as [Hin|Hlt]; [left|now right].
      right. revert Hin. clear. destruct r as [|a [|b r]]; simpl; tauto.
  - destruct (IH r) as [L I]; [simpl; lia|]. split.
    + cbn [List.length]. lia.
    + intros c [<-|Hc]; [left; now left|].
      destruct (I c Hc) as [Hin|Hlt]; [left; now right | now right].
Qed.

(** X6.  Decoding quoted-printable never lengthens a text, and every code
    unit of the result is a code unit of the input or a byte value. *)
Theorem decodeQuotedPrintable_bounds :
  forall input,
    (List.length (decodeQuotedPrintable input) <= List.length input)%nat
    /\ (forall c, In c (decodeQuotedPrintable input) ->
                  In c input \/ (c < 256)%N).
Proof.
  intros input. rewrite decodeQuotedPrintable_passes.
  destruct (removeSoftBreaks_sub input) as [L1 I1].
  destruct (decodeEscapes_sub (removeSoftBreaks input)) as [L2 I2].
  split; [lia|]. intros c Hc.
  destruct (I2 c Hc) as [H|H]; [left; now apply I1 | now right].
Qed.

(** A text that does not end with a line feed keeps something after the
    removal of its soft line breaks. *)
Lemma removeSoftBreaks_nonempty (s : jsstring) :
  s <> [] -> endsWithout LF s -> removeSoftBreaks s <> [].
Proof.
  induction s as [s IH] using length_ind. intros Hne Hend.
  destruct s as [|c0 r]; [congruence|]. rewrite removeSoftBreaks_eq.
  destruct r as [|c1 r1]; [discriminate|].
  destruct ((c0 =? EQUALS)%N && (c1 =? LF)%N) eqn:E1.
  - apply andb_true_iff in E1 as [_ E1]. apply N.eqb_eq in E1. subst c1.
    apply IH; [simpl; lia| |].
    + intros ->. exact (Hend [c0] eq_refl).
    + intros init ->. exact (Hend (c0 :: LF :: init) eq_refl).
  - destruct r1 as [|c2 r2]; [discriminate|].
    destruct ((c0 =? EQUALS)%N && (c1 =? CR)%N && (c2 =? LF)%N) eqn:E2;
      [|discriminate].
    apply andb_true_iff in E2 as [_ E2]. apply N.eqb_eq in E2. subst c2.
    apply IH; [simpl; lia| |].
    + intros ->. exact (Hend [c0; c1] eq_refl).
    + intros init ->. exact (Hend (c0 :: c1 :: LF :: init) eq_refl).
Qed.

Lemma decodeEscapes_nonempty (s : jsstring) :
  s <> [] -> decodeEscapes s <> [].
Proof.
  destruct s as [|c0 r]; [congruence|]. intros _.
  rewrite decodeEscapes_eq. now destruct (escapeAt (c0 :: r)).
Qed.

Lemma decodeQuotedPrintable_nonempty (s : jsstring) :
  s <> [] -> endsWithout LF s -> decodeQuotedPrintable s <> [].
Proof.
  intros H1 H2. rewrite decodeQuotedPrintable_passes.
  now apply decodeEscapes_nonempty, removeSoftBreaks_nonempty.
Qed.

(* ================================================================== *)
(** ** decodeBase64: what a successful decode returns                  *)
(* ================================================================== *)

Lemma b64Value_lt (c v : N) : b64Value c = Some v -> (v < 64)%N.
Proof.
  unfold b64Value.
  destruct (N.leb_spec 65 c), (N.leb_spec c 90); cbn [andb];
    try (intros Hq; assert (v = c - 65)%N by congruence; lia);
    destruct (N.leb_spec 97 c), (N.leb_spec c 122); cbn [andb];
    try (intros Hq; assert (v = c - 71)%N by congruence; lia);
    destruct (N.leb_spec 48 c), (N.leb_spec c 57); cbn [andb];
    try (intros Hq; assert (v = c + 4)%N by congruence; lia);
    destruct (c =? 43)%N; try (intros Hq; assert (v = 62)%N by congruence; lia);
    destruct (c =? 47)%N; try (intros Hq; assert (v = 63)%N by congruence; lia);
    discriminate.
Qed.

Lemma sextets_facts (data : jsstring) (l : list N) :
  sextets data = Some l ->
  Forall (fun v => (v < 64)%N) l /\ List.length l = List.length data.
Proof.
  revert l. induction data as [|c t IH]; intros l; cbn [sextets].
  - intros [= <-]. split; [constructor | reflexivity].
  - destruct (b64Value c) as [v|] eqn:Ev; [|discriminate].
    destruct (sextets t) as [vs|]; [|discriminate].
    intros [= <-]. destruct (IH vs eq_refl) as [F L]. split.
    + constructor; [exact (b64Value_lt _ Ev) | exact F].
    + cbn [List.length]. now rewrite L.
Qed.

Lemma values_length_ind (P : list N -> Prop) :
  (forall l, (forall r, (List.length r < List.length l)%nat -> P r) -> P l) ->
  forall l, P l.
Proof. exact (@length_ind P). Qed.

Lemma decodeSextets_facts (l : list N) :
  Forall (fun v => (v < 64)%N) l ->
  Forall (fun b => (b < 256)%N) (decodeSextets l)
  /\ (4 * List.length (decodeSextets l) <= 3 * List.length l)%nat
  /\ ((2 <= List.length l)%nat -> decodeSextets l <> []).
Proof.
  induction l as [l IH] using values_length_ind. intros F.
  destruct l as [|a [|b [|c [|d rest]]]].
  - repeat split; [constructor | cbn; lia | cbn; lia].
  - repeat split; [constructor | cbn; lia | cbn; lia].
  - inversion_clear F as [|? ? Ha F']. inversion_clear F' as [|? ? Hb _].
    cbn [decodeSextets List.length].
    repeat split; [repeat constructor; lia | lia | discriminate].
  - inversion_clear F as [|? ? Ha F']. inversion_clear F' as [|? ? Hb F''].
    inversion_clear F'' as [|? ? Hc _].
    cbn [decodeSextets List.length].
    repeat split; [repeat constructor; lia | lia | discriminate].
  - inversion_clear F as [|? ? Ha F']. inversion_clear F' as [|? ? Hb F''].
    inversion_clear F'' as [|? ? Hc F3]. inversion_clear F3 as [|? ? Hd Fr].
    destruct (IH rest) as (B & L & _); [cbn [List.length]; lia | exact Fr |].
    cbn [decodeSextets List.length].
    repeat split; [repeat (constructor; [lia|]); exact B | lia | discriminate].
Qed.

Lemma stripPadding_length (data : jsstring) :
  (List.length data - 2 <= List.length (stripPadding data) <= List.length data)%nat.
Proof.
  unfold stripPadding.
  destruct (List.length data mod 4 =? 0)%nat; [|lia].
  destruct (rev data) as [|c1 [|c2 r]] eqn:E; try lia.
  apply (f_equal (@List.length N)) in E. rewrite length_rev in E.
  cbn [List.length] in E.
  destruct (c1 =? 61)%N; [|lia].
  destruct (c2 =? 61)%N; rewrite length_rev; cbn [List.length]; lia.
Qed.

Lemma forgivingBase64Decode_facts (data out : jsstring) :
  forgivingBase64Decode data = Some out ->
  Forall (fun b => (b < 256)%N) out
  /\ (4 * List.length out <= 3 * List.length data)%nat
  /\ ((exists c, In c data /\ isAsciiWhitespace c = false) -> out <> []).
Proof.
  unfold forgivingBase64Decode.
  set (d1 := filter (fun c => negb (isAsciiWhitespace c)) data).
  set (d2 := stripPadding d1).
  destruct (Nat.eqb_spec (List.length d2 mod 4) 1) as [|Hmod]; [discriminate|].
  destruct (sextets d2) as [l|] eqn:El; [|discriminate].
  intros [= <-].
  destruct (sextets_facts _ El) as [F L].
  destruct (decodeSextets_facts F) as (B & S & NE).
  pose proof (stripPadding_length d1) as SP. fold d2 in SP.
  pose proof (filter_length_le (fun c => negb (isAsciiWhitespace c)) data)
    as FL. fold d1 in FL.
  split; [exact B|]. split; [lia|].
  intros (c & Hin & Hc). apply NE. rewrite L.
  assert (H1 : (1 <= List.length d1)%nat).
  { assert (In c d1)
      by (apply filter_In; split; [exact Hin | now rewrite Hc]).
    destruct d1; [contradiction | cbn; lia]. }
  assert (H2 : (1 <= List.length d2)%nat).
  { unfold d2, stripPadding.
    destruct (Nat.eqb_spec (List.length d1 mod 4) 0) as [H0|]; [|exact H1].
    assert (4 <= List.length d1)%nat.
    { destruct (List.length d1) as [|[|[|[|n]]]] eqn:E; try lia;
        cbn in H0; discriminate. }
    fold (stripPadding d1) in SP.
    destruct (rev d1) as [|c1 [|c2 r]] eqn:E; try lia.
    apply (f_equal (@List.length N)) in E. rewrite length_rev in E.
    cbn [List.length] in E.
    destruct (c1 =? 61)%N; [|lia].
    destruct (c2 =? 61)%N; rewrite length_rev; cbn [List.length]; lia. }
  destruct (List.length d2) as [|[|n]] eqn:E; [lia | | lia].
  exfalso. apply Hmod. reflexivity.
Qed.

Lemma isAsciiWhitespace_isWhiteSpace (c : N) :
  isWhiteSpace c = false -> isAsciiWhitespace c = false.
Proof.
  unfold isWhiteSpace, isAsciiWhitespace. intros H.
  repeat match goal with
         | |- context [(?a =? ?b)%N] => destruct (N.eqb_spec a b); subst
         end; try reflexivity; discriminate H.
Qed.

(** X7.  When the decode succeeds, [decodeBase64] returns a string of
    byte values (code units below 256), at most three quarters as long as
    the input, and logs nothing. *)
Theorem decodeBase64_bytes :
  forall input out,
    forgivingBase64Decode (stripWhiteSpace input) = Some out ->
    decodeBase64 input = ret out
    /\ Forall (fun b => (b < 256)%N) out
    /\ (4 * List.length out <= 3 * List.length input)%nat.
Proof.
  intros input out H. rewrite decodeBase64_run, H.
  destruct (forgivingBase64Decode_facts _ H) as (B & L & _).
  pose proof (filter_length_le (fun c => negb (isWhiteSpace c)) input) as FL.
  fold (stripWhiteSpace input) in FL.
  split; [reflexivity|]. split; [exact B | lia].
Qed.

Lemma decodeBase64_bytes_witness :
  forgivingBase64Decode (stripWhiteSpace (lit "4pyT")) = Some [226; 156; 147]%N
  /\ decodeBase64 (lit "4pyT") = ret [226; 156; 147]%N.
Proof.
  assert (H : forgivingBase64Decode (stripWhiteSpace (lit "4pyT"))
              = Some [226; 156; 147]%N) by reflexivity.
  split; [exact H|].
  exact (proj1 (decodeBase64_bytes (lit "4pyT") H)).
Defined.

Lemma decodeBase64_roundtrip_witness :
  Forall (fun b => (b < 256)%N) (lit "Test base64")
  /\ decodeBase64 (base64Encode (lit "Test base64")) = ret (lit "Test base64").
Proof.
  assert (H : Forall (fun b => (b < 256)%N) (lit "Test base64")).
  { repeat (constructor; [reflexivity|]). constructor. }
  split; [exact H|]. exact (decodeBase64_roundtrip H).
Defined.

(* ================================================================== *)
(** ** extractPartBody: null or a body that is not empty               *)
(* ================================================================== *)

Lemma trim_nonempty_ends (s : jsstring) :
  trim s <> [] ->
  (exists c, In c (trim s) /\ isWhiteSpace c = false)
  /\ endsWithout LF (trim s).
Proof.
  intros Hne. split.
  - destruct (trim s) as [|c t] eqn:E; [congruence|].
    exists c. split; [now left | exact (@trim_head s t c E)].
  - intros init E. now pose proof (@trim_last s init LF E).
Qed.

Lemma partRegion_trimmed (part body : jsstring) :
  partRegion part = Some body ->
  body <> [] /\ exists s, body = trim s.
Proof.
  unfold partRegion.
  destruct (indexOf part BLANK_LINE =? -1)%Z; [discriminate|].
  match goal with
  | |- context [falsy (trim ?x)] =>
      destruct (trim x) as [|c t] eqn:E; cbn [falsy]; [discriminate|];
      intros [= <-]; split; [discriminate | exists x; now rewrite E]
  end.
Qed.

Lemma decodeBody_nonempty (encoding s : jsstring) :
  trim s <> [] -> decodeBody encoding (trim s) <> [].
Proof.
  intros Hne. destruct (trim_nonempty_ends s Hne) as [(c & Hin & Hc) Hend].
  unfold decodeBody.
  destruct (str_eqb encoding (lit "quoted-printable"));
    [now apply decodeQuotedPrintable_nonempty|].
  destruct (str_eqb encoding (lit "base64")); [|exact Hne].
  destruct (forgivingBase64Decode (stripWhiteSpace (trim s))) as [out|] eqn:E;
    [|exact Hne].
  apply (forgivingBase64Decode_facts _ E).
  exists c. split.
  - apply filter_In. split; [exact Hin | now rewrite Hc].
  - now apply isAsciiWhitespace_isWhiteSpace.
Qed.

(** The run of [extractPartBody] in full: nothing is logged but the warning
    of a base64 body that does not decode. *)
Lemma extractPartBody_run (part : jsstring) :
  extractPartBody part =
  match partRegion part with
  | None => ret None
  | Some body =>
      (if str_eqb (partEncoding part) (lit "quoted-printable") then []
       else if str_eqb (partEncoding part) (lit "base64") then
              match forgivingBase64Decode (stripWhiteSpace body) with
              | Some _ => []
              | None => [decodeWarning]
              end
            else [],
       Normal (Some (decodeBody (partEncoding part) body)))
  end.
Proof.
  unfold extractPartBody, partRegion, decodeBody. fold BLANK_LINE.
  fold (partEncoding part).
  destruct (indexOf part BLANK_LINE =? -1)%Z; [reflexivity|].
  match goal with |- context [falsy ?b] => destruct (falsy b) end;
    [reflexivity|].
  destruct (str_eqb (partEncoding part) (lit "quoted-printable"));
    [reflexivity|].
  destruct (str_eqb (partEncoding part) (lit "base64")); [|reflexivity].
  rewrite decodeBase64_run.
  match goal with |- context [forgivingBase64Decode ?b] =>
    destruct (forgivingBase64Decode b) end; reflexivity.
Qed.

(** X8.  [extractPartBody] returns [null] exactly when the part has no
    blank line or its body region is empty, and otherwise a body that is
    never the empty string, whatever the encoding: the truth test of the
    caller only ever rejects [null]. *)
Theorem extractPartBody_null_or_nonempty :
  forall part,
    (includes part BLANK_LINE = false -> extractPartBody part = ret None)
    /\ (partRegion part = None <->
        outcome (extractPartBody part) = Normal None)
    /\ (forall body, outcome (extractPartBody part) = Normal (Some body) ->
                     body <> []).
Proof.
  intros part. rewrite extractPartBody_run. split; [|split].
  - intros H. unfold partRegion. now rewrite (indexOf_absent _ _ H).
  - destruct (partRegion part); cbn [outcome snd ret]; split;
      congruence.
  - destruct (partRegion part) as [region|] eqn:E; cbn [outcome snd ret];
      [|discriminate].
    intros body [= <-].
    destruct (partRegion_trimmed _ E) as [Hne [s ->]].
    now apply decodeBody_nonempty.
Qed.

Lemma extractPartBody_null_or_nonempty_witness :
  includes (lit "--") BLANK_LINE = false
  /\ extractPartBody (lit "--") = ret None.
Proof.
  assert (H : includes (lit "--") BLANK_LINE = false) by reflexivity.
  split; [exact H|].
  exact (proj1 (extractPartBody_null_or_nonempty (lit "--")) H).
Defined.

(* ================================================================== *)
(** ** extractPlainText: what it logs and what it returns              *)
(* ================================================================== *)

Lemma bind_ret_l {A B} (a : A) (k : A -> M B) : bind (ret a) k = k a.
Proof. unfold bind, ret. now destruct (k a). Qed.

Lemma extractPartBody_cases (part : jsstring) :
  extractPartBody part = ret None
  \/ exists body,
      body <> []
      /\ (extractPartBody part = ret (Some body)
          \/ extractPartBody part = ([decodeWarning], Normal (Some body))).
Proof.
  rewrite extractPartBody_run.
  destruct (partRegion part) as [region|] eqn:E; [right|now left].
  destruct (partRegion_trimmed _ E) as [Hne [s ->]].
  exists (decodeBody (partEncoding part) (trim s)).
  split; [now apply decodeBody_nonempty|].
  destruct (str_eqb (partEncoding part) (lit "quoted-printable")); [now left|].
  destruct (str_eqb (partEncoding part) (lit "base64")); [|now left].
  destruct (forgivingBase64Decode (stripWhiteSpace (trim s)));
    [now left | now right].
Qed.

Lemma scanParts_cases (parts : list jsstring) :
  scanParts parts = ret None
  \/ exists body,
      scanParts parts = ret (Some body)
      \/ scanParts parts = ([decodeWarning], Normal (Some body)).
Proof.
  induction parts as [|part rest IH]; [now left|].
  cbn [scanParts].
  destruct (negb (includes part (lit "Content-Type: text/plain")));
    [exact IH|].
  destruct (extractPartBody_cases part) as [-> | (body & Hne & [-> | ->])].
  - now rewrite bind_ret_l.
  - right. exists body. left. destruct body; [congruence|reflexivity].
  - right. exists body. right. destruct body; [congruence|reflexivity].
Qed.

Lemma extractPlainText_cases (rawText : jsstring) :
  exists body,
    extractPlainText rawText = ret body
    \/ extractPlainText rawText = ([decodeWarning], Normal body).
Proof.
  unfold extractPlainText.
  destruct (falsy rawText); [exists []; now left|].
  destruct (search re_boundary rawText) as [boundary|]; [|eexists; now left].
  destruct (scanParts_cases (split rawText (lit "--" ++ boundary)))
    as [-> | (body & [-> | ->])].
  - eexists. now left.
  - exists body. now left.
  - exists body. now right.
Qed.

(** X9.  [extractPlainText] never raises, makes no request, and logs at
    most one event, the warning of a base64 body that did not decode; on
    the empty text it returns the empty text. *)
Theorem extractPlainText_never_raises :
  forall rawText,
    (exists body,
        extractPlainText rawText = ret body
        \/ extractPlainText rawText = ([decodeWarning], Normal body))
    /\ extractPlainText [] = ret [].
Proof.
  intros rawText. split; [apply extractPlainText_cases | reflexivity].
Qed.

(** X10.  On a multipart message the result is the body region, decoded,
    of the first part that contains the words and has a body region; when
    no part with the words has one, the result is the non-MIME extraction
    and nothing is logged. *)
Theorem extractPlainText_first_region :
  forall rawText boundary,
    search re_boundary rawText = Some boundary ->
    let parts := split rawText (lit "--" ++ boundary) in
    (forall before part after region,
        parts = before ++ part :: after ->
        includes part TEXT_PLAIN = true ->
        partRegion part = Some region ->
        (forall p, In p before -> includes p TEXT_PLAIN = true ->
                   partRegion p = None) ->
        outcome (extractPlainText rawText)
        = Normal (decodeBody (partEncoding part) region))
    /\ ((forall p, In p parts -> includes p TEXT_PLAIN = true ->
                   partRegion p = None) ->
        extractPlainText rawText = ret (extractSimpleEmail rawText)).
Proof.
  intros rawText boundary Hb parts. split.
  - intros before part after region Hparts Hin Hregion Hbefore.
    rewrite (extractPlainText_boundary _ Hb). fold parts. rewrite Hparts.
    assert (Hy : yields part (decodeBody (partEncoding part) region)).
    { split.
      - now rewrite extractPartBody_outcome, Hregion.
      - destruct (partRegion_trimmed _ Hregion) as [Hne [s ->]].
        now apply decodeBody_nonempty. }
    rewrite (@scanParts_first before after part _ Hin Hy); [reflexivity|].
    intros p Hp Hinc. left.
    now rewrite extractPartBody_outcome, (Hbefore p Hp Hinc).
  - intros Hnone. unfold extractPlainText. rewrite Hb.
    destruct rawText as [|c t]; [discriminate Hb|]. cbn [falsy]. fold parts.
    assert (E : scanParts parts = ret None).
    { clear Hb. induction parts as [|p ps IH]; [reflexivity|].
      cbn [scanParts]. fold TEXT_PLAIN.
      assert (IH' := IH (fun q Hq => Hnone q (or_intror Hq))).
      destruct (includes p TEXT_PLAIN) eqn:Hinc; cbn [negb]; [|exact IH'].
      rewrite extractPartBody_run, (Hnone p (or_introl eq_refl) Hinc).
      cbn [bind ret]. rewrite IH'. reflexivity. }
    rewrite E. reflexivity.
Qed.

Lemma extractPlainText_first_region_witness :
  search re_boundary alternativeExample = Some (lit "sep")
  /\ outcome (extractPlainText alternativeExample)
     = Normal (lit "Hello, World!")
  /\ search re_boundary htmlOnly = Some (lit "sep")
  /\ extractPlainText htmlOnly = ret (extractSimpleEmail htmlOnly).
Proof.
  assert (Hb : search re_boundary alternativeExample = Some (lit "sep"))
    by reflexivity.
  assert (Hb' : search re_boundary htmlOnly = Some (lit "sep"))
    by reflexivity.
  split; [exact Hb|]. split; [|split; [exact Hb'|]].
  - refine (proj1 (extractPlainText_first_region _ Hb)
              [lit "Content-Type: multipart/alternative; boundary="
               ++ [34%N] ++ lit "sep" ++ [34%N] ++ CRLF ++ CRLF;
               CRLF ++ lit "Content-Type: text/html" ++ CRLF ++ CRLF
               ++ lit "<p>Hello</p>" ++ CRLF]
              (CRLF ++ lit "Content-Type: text/plain" ++ CRLF
               ++ lit "Content-Transfer-Encoding: quoted-printable"
               ++ CRLF ++ CRLF ++ lit "Hello=2C=20World=21" ++ CRLF)
              [lit "--"] (lit "Hello=2C=20World=21")
              eq_refl eq_refl eq_refl _).
    intros p [<-|[<-|[]]] Hp; discriminate Hp.
  - apply (proj2 (extractPlainText_first_region _ Hb')).
    intros p Hp Hinc. vm_compute in Hp.
    repeat destruct Hp as [Hp|Hp]; try (subst p; discriminate Hinc).
    contradiction.
Defined.

(* ================================================================== *)
(** ** generateTopic: the characters of a topic                        *)
(* ================================================================== *)

Lemma first_at (email : jsstring) :
  In AT email ->
  exists local rest, email = local ++ AT :: rest /\ ~ In AT local.
Proof.
  induction email as [|c t IH]; [intros []|].
  destruct (N.eq_dec c AT) as [->|Hne].
  - intros _. exists [], t. split; [reflexivity | tauto].
  - intros [H|H]; [congruence|].
    destruct (IH H) as (local & rest & -> & Hl).
    exists (c :: local), rest. split; [reflexivity|].
    intros [E|E]; [congruence | tauto].
Qed.

Lemma generateTopic_without_at (email : jsstring) :
  ~ In AT email -> generateTopic email = lit "unknown".
Proof.
  intros H. unfold generateTopic.
  destruct (includes email (lit "@")) eqn:E.
  - apply includes_In in E. contradiction.
  - now rewrite orb_true_r.
Qed.

Lemma generateTopic_with_at (local rest : jsstring) :
  ~ In AT local ->
  generateTopic (local ++ AT :: rest) =
  let domain := takeWhile (isNot AT) rest in
  if falsy domain then lit "unknown" else dotsToDashes domain.
Proof.
  intros H. unfold generateTopic.
  assert (E : includes (local ++ AT :: rest) (lit "@") = true).
  { apply includes_In, in_or_app. right. now left. }
  rewrite E. replace (falsy (local ++ AT :: rest)) with false
    by (now destruct local).
  cbn [orb negb]. change (lit "@") with [AT].
  rewrite split_single.
  destruct (takeWhile_isNot_app AT local rest H) as [E1 E2]; rewrite E1, E2.
  rewrite split_single. cbn [nth_error].
  rewrite replace_dot_dotsToDashes. unfold truthy.
  now destruct (takeWhile (isNot AT) rest).
Qed.

Lemma takeWhile_In (p : N -> bool) (s : jsstring) (c : N) :
  In c (takeWhile p s) -> p c = true.
Proof.
  induction s as [|x t IH]; [intros []|]. cbn [takeWhile].
  destruct (p x) eqn:E; [|intros []].
  intros [<-|H]; [exact E | exact (IH H)].
Qed.

(** X11.  A topic is never empty and never contains a dot or an [@]. *)
Theorem generateTopic_characters :
  forall email,
    generateTopic email <> []
    /\ ~ In 46%N (generateTopic email)
    /\ ~ In AT (generateTopic email).
Proof.
  assert (U : lit "unknown" <> [] /\ ~ In 46%N (lit "unknown")
              /\ ~ In AT (lit "unknown")).
  { split; [discriminate|].
    split; intros H; vm_compute in H;
      repeat destruct H as [H|H]; try discriminate H; exact H. }
  intros email. destruct (in_dec N.eq_dec AT email) as [Hin|Hout].
  - destruct (@first_at email Hin) as (local & rest & -> & Hl).
    rewrite (@generateTopic_with_at local rest Hl). cbv zeta.
    destruct (takeWhile (isNot AT) rest) as [|c d] eqn:E; [exact U|].
    cbn [falsy]. split; [discriminate|]. split.
    + intros H. apply in_map_iff in H as (x & Hx & _).
      destruct (N.eqb_spec x 46); [discriminate Hx | congruence].
    + intros H. apply in_map_iff in H as (x & Hx & Hd).
      destruct (N.eqb_spec x 46); [discriminate Hx|]. subst x.
      rewrite <- E in Hd. apply takeWhile_In in Hd. discriminate Hd.
  - rewrite (@generateTopic_without_at email Hout). exact U.
Qed.

(* ================================================================== *)
(** ** sendNotification: the request                                   *)
(* ================================================================== *)

Lemma fetchCount_app (l1 l2 : list event) :
  fetchCount (l1 ++ l2) = (fetchCount l1 + fetchCount l2)%nat.
Proof.
  induction l1 as [|ev l1 IH]; [reflexivity|].
  destruct ev; cbn [app fetchCount]; rewrite IH; reflexivity.
Qed.

Lemma sendNotification_events (host : Host) (this : EmailProcessor)
      (server topic payload subject to : jsstring) :
  NTFY_SERVER (env this) = Some server ->
  exists rest,
    events (sendNotification host this topic payload subject to) =
    Fetch (notificationUrl server topic)
      (notificationRequest payload subject to) :: rest
    /\ fetchCount rest = 0%nat.
Proof.
  intros Hs. rewrite (@sendNotification_run host this server topic payload
                        subject to Hs). cbv zeta.
  destruct (fetch host _ _) as [response|err]; cbn [events fst].
  - eexists. split; [reflexivity|]. now destruct (ok response).
  - eexists. split; reflexivity.
Qed.

(** X12.  With its server set, [sendNotification] makes exactly one
    request, a POST whose body is the payload and whose four headers are
    Title, Priority, Tags and Markdown in this order; no header value
    contains a carriage return or a line feed, whatever the subject and the
    recipient. *)
Theorem sendNotification_request :
  forall host this server topic payload subject to,
    NTFY_SERVER (env this) = Some server ->
    exists url init rest,
      events (sendNotification host this topic payload subject to)
      = Fetch url init :: rest
      /\ fetchCount rest = 0%nat
      /\ req_method init = lit "POST"
      /\ req_body init = payload
      /\ List.map fst (req_headers init)
         = [lit "Title"; lit "Priority"; lit "Tags"; lit "Markdown"]
      /\ (forall name value,
             In (name, value) (req_headers init) ->
             ~ In CR value /\ ~ In LF value).
Proof.
  intros host this server topic payload subject to Hs.
  destruct (@sendNotification_events host this server topic payload subject
              to Hs) as (rest & Hev & Hrest).
  exists (notificationUrl server topic),
    (notificationRequest payload subject to), rest.
  split; [exact Hev|]. split; [exact Hrest|].
  split; [reflexivity|]. split; [reflexivity|]. split; [reflexivity|].
  assert (K : forall prefix v,
             ~ In CR prefix -> ~ In LF prefix ->
             ~ In CR (prefix ++ sanitizeHeader v)
             /\ ~ In LF (prefix ++ sanitizeHeader v)).
  { intros prefix v H1 H2.
    split; intros H; apply in_app_or in H as [H|H]; try tauto;
      destruct (@sanitizeHeader_no_breaks v _ H); congruence. }
  assert (L : forall text : jsstring,
             forallb (fun c => negb (c =? CR)%N && negb (c =? LF)%N) text = true ->
             ~ In CR text /\ ~ In LF text).
  { intros text H. rewrite forallb_forall in H.
    split; intros Hin; specialize (H _ Hin); discriminate H. }
  intros name value [E|[E|[E|[E|[]]]]]; injection E as _ <-.
  - destruct (L (lit "Email: ") eq_refl) as [A B].
    exact (K (lit "Email: ") subject A B).
  - exact (L (lit "4") eq_refl).
  - destruct (L (lit "email,") eq_refl) as [A B].
    exact (K (lit "email,") to A B).
  - exact (L (lit "yes") eq_refl).
Qed.

Lemma sendNotification_request_witness :
  NTFY_SERVER (env (mkProcessor exampleEnv))
  = Some (lit "https://ntfy.example.com/")
  /\ exists init rest,
      events (sendNotification onlineHost (mkProcessor exampleEnv)
                (lit "example-com") (lit "payload")
                (lit "Hi" ++ CRLF ++ lit "X-Injected: 1") (lit "to@example.com"))
      = Fetch (lit "https://ntfy.example.com/example-com") init :: rest
      /\ forall name value,
          In (name, value) (req_headers init) ->
          ~ In CR value /\ ~ In LF value.
Proof.
  assert (H : NTFY_SERVER (env (mkProcessor exampleEnv))
              = Some (lit "https://ntfy.example.com/")) by reflexivity.
  split; [exact H|].
  destruct (@sendNotification_request onlineHost (mkProcessor exampleEnv)
              (lit "https://ntfy.example.com/") (lit "example-com")
              (lit "payload") (lit "Hi" ++ CRLF ++ lit "X-Injected: 1")
              (lit "to@example.com") H)
    as (url & init & rest & Hev & _ & _ & _ & _ & Hsafe).
  exists init, rest. split; [|exact Hsafe].
  rewrite Hev. f_equal.
  assert (E : hd_error (events (sendNotification onlineHost
                                  (mkProcessor exampleEnv)
                (lit "example-com") (lit "payload")
                (lit "Hi" ++ CRLF ++ lit "X-Injected: 1") (lit "to@example.com")))
              = Some (Fetch (lit "https://ntfy.example.com/example-com")
                        (notificationRequest (lit "payload")
                           (lit "Hi" ++ CRLF ++ lit "X-Injected: 1")
                           (lit "to@example.com")))) by reflexivity.
  rewrite Hev in E. cbn [hd_error] in E.
  injection E as -> _. reflexivity.
Defined.

Lemma replaceFirst_final_slash (base : jsstring) :
  replaceFirst (re_at_end (lit "/")) (fun _ => []) (base ++ lit "/") = base.
Proof.
  induction base as [|c b IH]; [reflexivity|].
  cbn [app replaceFirst]. unfold re_at_end at 1.
  replace (List.length (c :: b ++ lit "/") =? List.length (lit "/"))%nat
    with false
    by (cbn [List.length]; rewrite length_app; cbn [List.length];
        symmetry; apply Nat.eqb_neq; change (List.length (lit "/")) with 1%nat;
        lia).
  rewrite andb_false_r. now rewrite IH.
Qed.

Lemma replaceFirst_no_final_slash (s : jsstring) :
  endsWithout 47%N s ->
  replaceFirst (re_at_end (lit "/")) (fun _ => []) s = s.
Proof.
  induction s as [|c t IH]; intros H; [reflexivity|].
  cbn [replaceFirst]. unfold re_at_end at 1.
  assert (E : startsWith (c :: t) (lit "/")
              && (List.length (c :: t) =? List.length (lit "/"))%nat = false).
  { destruct t as [|c' t'].
    - change (startsWith [c] (lit "/")) with ((47 =? c)%N && true).
      destruct (N.eqb_spec 47 c) as [<-|]; [|reflexivity].
      exfalso. exact (H [] eq_refl).
    - now rewrite andb_false_r. }
  rewrite E. f_equal. apply IH.
  intros init ->. exact (H (c :: init) eq_refl).
Qed.

(** X13.  One final slash of the configured server is dropped and no more:
    a server with and without a final slash give the same URL, the server,
    a slash and the topic. *)
Theorem sendNotification_url :
  forall host this base topic payload subject to,
    endsWithout 47%N base ->
    NTFY_SERVER (env this) = Some base
    \/ NTFY_SERVER (env this) = Some (base ++ lit "/") ->
    exists rest,
      events (sendNotification host this topic payload subject to) =
      Fetch (base ++ lit "/" ++ topic) (notificationRequest payload subject to)
      :: rest.
Proof.
  intros host this base topic payload subject to Hend [Hs|Hs];
    destruct (@sendNotification_events host this _ topic payload subject to Hs)
      as (rest & Hev & _);
    exists rest; rewrite Hev; unfold notificationUrl.
  - now rewrite (replaceFirst_no_final_slash Hend).
  - now rewrite replaceFirst_final_slash.
Qed.

Lemma sendNotification_url_witness :
  endsWithout 47%N (lit "https://ntfy.example.com")
  /\ exists rest,
      events (sendNotification onlineHost (mkProcessor exampleEnv)
                (lit "example-com") (lit "payload") (lit "subject")
                (lit "to@example.com")) =
      Fetch (lit "https://ntfy.example.com" ++ lit "/" ++ lit "example-com")
        (notificationRequest (lit "payload") (lit "subject")
           (lit "to@example.com"))
      :: rest.
Proof.
  assert (H : endsWithout 47%N (lit "https://ntfy.example.com")).
  { intros init E. apply (f_equal (@rev N)) in E.
    rewrite rev_app_distr in E. discriminate E. }
  split; [exact H|].
  exact (@sendNotification_url onlineHost (mkProcessor exampleEnv)
           (lit "https://ntfy.example.com") (lit "example-com")
           (lit "payload") (lit "subject") (lit "to@example.com") H
           (or_intror eq_refl)).
Defined.

(* ================================================================== *)
(** ** The exported handler: how many requests                         *)
(* ================================================================== *)

Lemma newEmailProcessor_present (e : Env) :
  absent (NTFY_SERVER e) = false ->
  newEmailProcessor e = ret (mkProcessor e)
  /\ exists server, NTFY_SERVER e = Some server.
Proof.
  intros H. unfold newEmailProcessor, validateEnvironment. cbn [env].
  rewrite H. split; [reflexivity|].
  destruct (NTFY_SERVER e) as [server|]; [now exists server | discriminate H].
Qed.

Lemma processEmail_unreadable (host : Host) (this : EmailProcessor)
      (message : Message) (err : exn) :
  raw message = Throw err ->
  processEmail host this message =
  ([ConsoleError [Str (lit "Email processing failed:"); Err err]], Throw err).
Proof. intros H. unfold processEmail. rewrite H. reflexivity. Qed.

(** X14.  Handling one email makes at most one request: none when
    [NTFY_SERVER] is missing or empty, none when the raw message cannot be
    read (the failure is logged by [processEmail] and by the handler, which
    returns normally), and exactly one otherwise. *)
Theorem email_request_count :
  forall host message e,
    (fetchCount (events (email host message e)) <= 1)%nat
    /\ (absent (NTFY_SERVER e) = true ->
        fetchCount (events (email host message e)) = 0%nat)
    /\ (forall err,
           absent (NTFY_SERVER e) = false ->
           raw message = Throw err ->
           email host message e =
           ([ConsoleError [Str (lit "Email processing failed:"); Err err];
             handlerFailed err],
            Normal tt))
    /\ (forall rawText,
           absent (NTFY_SERVER e) = false ->
           raw message = Normal rawText ->
           fetchCount (events (email host message e)) = 1%nat).
Proof.
  intros host message e.
  assert (A : absent (NTFY_SERVER e) = true ->
              fetchCount (events (email host message e)) = 0%nat).
  { intros H. unfold email, newEmailProcessor, validateEnvironment.
    cbn [env]. rewrite H. reflexivity. }
  assert (B : forall err,
             absent (NTFY_SERVER e) = false ->
             raw message = Throw err ->
             email host message e =
             ([ConsoleError [Str (lit "Email processing failed:"); Err err];
               handlerFailed err],
              Normal tt)).
  { intros err H Hraw. destruct (newEmailProcessor_present e H) as [Hn _].
    unfold email. rewrite Hn, bind_ret_l.
    rewrite (@processEmail_unreadable host (mkProcessor e) message err Hraw).
    reflexivity. }
  assert (C : forall rawText,
             absent (NTFY_SERVER e) = false ->
             raw message = Normal rawText ->
             fetchCount (events (email host message e)) = 1%nat).
  { intros rawText H Hraw.
    destruct (newEmailProcessor_present e H) as [Hn [server Hs]].
    rewrite email_run. unfold handling. rewrite Hn, bind_ret_l.
    destruct (extractPlainText_cases rawText) as (body & [Hx | Hx]);
      pose proof (@processEmail_run host (mkProcessor e) message rawText
                    server body _ Hraw Hs Hx) as P;
      cbv zeta in P; rewrite P;
      match goal with
      | |- context [fetch host ?u ?i] => destruct (fetch host u i) as [r|err]
      end; cbn [outcome events fst snd];
      rewrite ?fetchCount_app; cbn [fetchCount app];
      try (destruct (ok r)); reflexivity. }
  split; [|split; [exact A | split; [exact B | exact C]]].
  destruct (absent (NTFY_SERVER e)) eqn:Ha.
  - rewrite (A eq_refl). lia.
  - destruct (raw message) as [rawText|err] eqn:Hraw.
    + rewrite (C rawText eq_refl eq_refl). lia.
    + rewrite (B err eq_refl eq_refl). cbn. lia.
Qed.

Lemma email_request_count_witness :
  absent (NTFY_SERVER (mkEnv (Some []))) = true
  /\ fetchCount (events (email onlineHost bareMessage (mkEnv (Some [])))) = 0%nat
  /\ absent (NTFY_SERVER exampleEnv) = false
  /\ email onlineHost (mkMessage None None (fun _ => None)
                         (Throw transportError)) exampleEnv =
     ([ConsoleError [Str (lit "Email processing failed:"); Err transportError];
       handlerFailed transportError],
      Normal tt)
  /\ fetchCount (events (email offlineHost bareMessage exampleEnv)) = 1%nat.
Proof.
  assert (H1 : absent (NTFY_SERVER (mkEnv (Some []))) = true) by reflexivity.
  assert (H2 : absent (NTFY_SERVER exampleEnv) = false) by reflexivity.
  split; [exact H1|]. split.
  - exact (proj1 (proj2 (email_request_count onlineHost bareMessage
                           (mkEnv (Some [])))) H1).
  - split; [exact H2|]. split.
    + exact (proj1 (proj2 (proj2 (email_request_count onlineHost
               (mkMessage None None (fun _ => None) (Throw transportError))
               exampleEnv))) transportError H2 eq_refl).
    + exact (proj2 (proj2 (proj2 (email_request_count offlineHost bareMessage
               exampleEnv))) (lit "Hello world!") H2 eq_refl).
Defined.

(* ================================================================== *)
(** ** processEmail: how a run ends and what it sends                  *)
(* ================================================================== *)

(** X16.  With the server set, [processEmail] raises exactly what stopped
    it, after logging it: the failure to read the raw message (no request
    is then made) or the rejection of the request.  When the request is
    answered it returns normally and its last event is the line
    [Email notification sent for: subject], also when the status of the
    answer is not a success. *)
Theorem processEmail_outcomes :
  forall host this message server,
    NTFY_SERVER (env this) = Some server ->
    (forall err,
        raw message = Throw err ->
        processEmail host this message =
        ([ConsoleError [Str (lit "Email processing failed:"); Err err]],
         Throw err))
    /\ (forall rawText,
           raw message = Normal rawText ->
           exists log url init,
             (forall err,
                 fetch host url init = Throw err ->
                 processEmail host this message =
                 (log ++
                  [Fetch url init;
                   ConsoleError [Str (lit "Failed to send ntfy notification:");
                                 Err err];
                   ConsoleError [Str (lit "Email processing failed:");
                                 Err err]],
                  Throw err))
             /\ (forall response,
                    fetch host url init = Normal response ->
                    exists before,
                      processEmail host this message =
                      (before ++
                       [ConsoleLog
                          [Str (lit "Email notification sent for: "
                                ++ orElse (headers_get message (lit "subject"))
                                     (lit "(no subject)"))]],
                       Normal tt))).
Proof.
  intros host this message server Hs. split.
  - intros err Hraw. exact (@processEmail_unreadable host this message err Hraw).
  - intros rawText Hraw.
    destruct (extractPlainText_normal rawText) as [bodyText Hb].
    assert (Hx : extractPlainText rawText
                 = (events (extractPlainText rawText), Normal bodyText)).
    { rewrite <- Hb. apply M_eta. }
    pose proof (@processEmail_run host this message rawText server bodyText _
                  Hraw Hs Hx) as P.
    cbv zeta in P.
    match type of P with
    | _ = match fetch host ?u ?i with _ => _ end =>
        exists (events (extractPlainText rawText)), u, i
    end.
    split.
    + intros err E. rewrite P, E. reflexivity.
    + intros response E. rewrite P, E.
      eexists. rewrite app_comm_cons, app_assoc. reflexivity.
Qed.

Lemma processEmail_outcomes_witness :
  NTFY_SERVER (env (mkProcessor exampleEnv))
  = Some (lit "https://ntfy.example.com/")
  /\ raw (mkMessage None None (fun _ => None) (Throw transportError))
     = Throw transportError
  /\ processEmail onlineHost (mkProcessor exampleEnv)
       (mkMessage None None (fun _ => None) (Throw transportError)) =
     ([ConsoleError [Str (lit "Email processing failed:");
                     Err transportError]],
      Throw transportError).
Proof.
  assert (H : NTFY_SERVER (env (mkProcessor exampleEnv))
              = Some (lit "https://ntfy.example.com/")) by reflexivity.
  split; [exact H|]. split; [reflexivity|].
  exact (proj1 (@processEmail_outcomes onlineHost (mkProcessor exampleEnv)
                  (mkMessage None None (fun _ => None) (Throw transportError))
                  _ H)
           transportError eq_refl).
Defined.


